(** * The offline job crawler, [src/tools/offline_job_crawl.py]

    A shallow embedding of the crawler that walks the result pages of a job
    board, filters the captured job descriptions, writes one CSV file per
    category and merges the category files into a combined JSON-lines file.

    The browser is the environment: what a navigation, a click or a pager
    lookup does is read from an oracle ([site]), and the Python code between
    two such interactions is translated statement by statement.  Effects on
    the file system and on the browser are threaded through a [world].

    Files are taken at the level at which the code handles them: a CSV file
    is the list of rows that [csv.DictWriter] writes and [csv.DictReader]
    reads back, a line of the combined file is the dictionary that
    [json.dumps] serialises.  The settle delays, the progress bar and the
    console are taken to return normally, whatever text they are given, and
    the file system to grant the directories and the files the crawler asks
    for: a path that cannot be created, such as the empty one, makes
    [os.makedirs] or [open] raise before anything else happens, and lies
    outside the model.  What the code fixes itself is modelled: the
    category file is written as UTF-8, row by row, and a row that UTF-8
    cannot encode makes the write raise.  The page loop can run for ever on
    a site that keeps offering pages of rejected cards, so it takes fuel,
    one unit per page; a run that is out of fuel is reported as still
    running. *)

From Stdlib Require Import ZArith NArith List Lia Bool String Ascii.
From Stdlib Require Import Floats Uint63 DecimalString.
From stdpp Require Import gmap list.
Import ListNotations.

Local Open Scope Z_scope.

(** ** Python values used by the crawler *)

(** A Python [str] is a sequence of Unicode code points; [len] counts code
    points, not bytes. *)
Abbreviation pystr := (list N).

Module Py.

(** Decoder for the UTF-8 bytes of a string literal of this file, so that
    the literals of the source can be written as they are there. *)
Fixpoint utf8_decode (bs : list N) : pystr :=
  match bs with
  | [] => []
  | b0 :: r0 =>
    if (b0 <? 128)%N then b0 :: utf8_decode r0
    else match r0 with
    | [] => []
    | b1 :: r1 =>
      if (b0 <? 224)%N
      then ((b0 - 192) * 64 + (b1 - 128))%N :: utf8_decode r1
      else match r1 with
      | [] => []
      | b2 :: r2 =>
        if (b0 <? 240)%N
        then ((b0 - 224) * 4096 + (b1 - 128) * 64 + (b2 - 128))%N
             :: utf8_decode r2
        else match r2 with
        | [] => []
        | b3 :: r3 =>
          ((b0 - 240) * 262144 + (b1 - 128) * 4096
           + (b2 - 128) * 64 + (b3 - 128))%N :: utf8_decode r3
        end
      end
    end
  end.

Definition str (s : string) : pystr :=
  utf8_decode (map N_of_ascii (list_ascii_of_string s)).

(** [len(s)] *)
Definition len {A} (s : list A) : Z := Z.of_nat (length s).

(** [c.isspace()]: the code points Python treats as whitespace. *)
Definition isspace (c : N) : bool :=
  ((9 <=? c) && (c <=? 13) || (28 <=? c) && (c <=? 32)
   || (c =? 133) || (c =? 160) || (c =? 5760)
   || (8192 <=? c) && (c <=? 8202)
   || (c =? 8232) || (c =? 8233) || (c =? 8239) || (c =? 8287)
   || (c =? 12288))%N.

Fixpoint lstrip (s : pystr) : pystr :=
  match s with
  | [] => []
  | c :: s' => if isspace c then lstrip s' else s
  end.

Definition rstrip (s : pystr) : pystr := rev (lstrip (rev s)).

(** [s.strip()] *)
Definition strip (s : pystr) : pystr := rstrip (lstrip s).

(** [s.split(sep)] for a separator of one character. *)
Fixpoint split (sep : N) (s : pystr) : list pystr :=
  match s with
  | [] => [[]]
  | c :: s' =>
    if (c =? sep)%N then [] :: split sep s'
    else match split sep s' with
         | [] => [[c]]
         | w :: ws => (c :: w) :: ws
         end
  end.

(** [sep.join(parts)] *)
Fixpoint join (sep : pystr) (parts : list pystr) : pystr :=
  match parts with
  | [] => []
  | [p] => p
  | p :: ps => p ++ sep ++ join sep ps
  end.

Fixpoint startswith (p s : pystr) : bool :=
  match p, s with
  | [], _ => true
  | _ :: _, [] => false
  | a :: p', b :: s' => (a =? b)%N && startswith p' s'
  end.

(** [sub in s] *)
Fixpoint contains (sub s : pystr) : bool :=
  startswith sub s ||
  match s with
  | [] => false
  | _ :: s' => contains sub s'
  end.

(** [c.isascii()] *)
Definition isascii (c : N) : bool := (c <? 128)%N.

(** [c.isalpha()] on the ASCII range, the only place where the crawler
    evaluates it: in [c.isascii() and c.isalpha()] the right operand is
    reached for ASCII code points only. *)
Definition isalpha (c : N) : bool :=
  ((65 <=? c) && (c <=? 90) || (97 <=? c) && (c <=? 122))%N.

(** [str(n)] for an integer. *)
Definition str_of_int (n : Z) : pystr :=
  str (NilEmpty.string_of_int (Z.to_int n)).

(** [float(n)] for an integer below [2^53], where the conversion is
    exact; [a / b] on two such integers is then the IEEE 754 binary64
    quotient, which is what Python's true division returns. *)
Definition float_of_int (n : Z) : float :=
  PrimFloat.of_uint63 (Uint63.of_Z n).

(** A [dict] keeps its keys in insertion order. *)
Definition dict (K V : Type) : Type := list (K * V).

Section Dict.
Context {K V : Type} `{EqDecision K}.

(** [d.get(k)] *)
Fixpoint get (d : dict K V) (k : K) : option V :=
  match d with
  | [] => None
  | (k', v) :: d' => if bool_decide (k' = k) then Some v else get d' k
  end.

(** [k in d] *)
Definition mem (d : dict K V) (k : K) : bool :=
  match get d k with Some _ => true | None => false end.

(** [d[k] = v]: an existing key keeps its position. *)
Fixpoint set (d : dict K V) (k : K) (v : V) : dict K V :=
  match d with
  | [] => [(k, v)]
  | (k', v') :: d' =>
    if bool_decide (k' = k) then (k', v) :: d' else (k', v') :: set d' k v
  end.

(** [list(d.keys())] *)
Definition keys (d : dict K V) : list K := map fst d.

(** [list(d.values())] *)
Definition values (d : dict K V) : list V := map snd d.

(** [dict(zip(ks, vs))] *)
Definition of_zip (ks : list K) (vs : list V) : dict K V :=
  fold_left (fun d kv => set d (fst kv) (snd kv)) (combine ks vs) [].
End Dict.

End Py.

(** ** The filter on job descriptions (lines 213-238) *)

(** [sum(1 for c in job_description if c.isascii() and c.isalpha())] *)
Definition english_chars (job_description : pystr) : Z :=
  Py.len (List.filter (fun c => Py.isascii c && Py.isalpha c) job_description).

(** [english_chars / total_chars if total_chars > 0 else 0] *)
Definition english_ratio (job_description : pystr) : float :=
  let total_chars := Py.len job_description in
  if 0 <? total_chars
  then PrimFloat.div (Py.float_of_int (english_chars job_description))
                     (Py.float_of_int total_chars)
  else PrimFloat.zero.

(** The literal [0.3] of line 231: the binary64 number nearest to 3/10. *)
Definition english_limit : float := 0x1.3333333333333p-2%float.

Inductive decision := Accept | RejectShort | RejectForeign.

(** The two filters, in the order of the source: the length test of line
    216, then the ratio test of line 231. *)
Definition filter_decision (min_description_length : Z)
    (job_description : pystr) : decision :=
  if Py.len job_description <? min_description_length then RejectShort
  else if PrimFloat.ltb english_limit (english_ratio job_description)
       then RejectForeign
       else Accept.

(** ** Static data *)

(** [job_dict] (lines 20-34): category name to search code, in declaration
    order. *)
Definition job_dict : Py.dict pystr pystr := Eval vm_compute in
  [ (Py.str "Java", Py.str "100101");
    (Py.str "C/C++", Py.str "100102");
    (Py.str "Python", Py.str "100109");
    (Py.str "Golang", Py.str "100116");
    (Py.str "Node.js", Py.str "100114");
    (Py.str "图像算法", Py.str "101306");
    (Py.str "自然语言处理算法", Py.str "100117");
    (Py.str "大模型算法", Py.str "101310");
    (Py.str "数据挖掘", Py.str "100104");
    (Py.str "规控算法", Py.str "101311");
    (Py.str "SLAM算法", Py.str "101312");
    (Py.str "推荐算法", Py.str "100118");
    (Py.str "搜索算法", Py.str "100115") ].

(** The header of a category file (lines 89-102). *)
Definition fieldnames : list pystr := Eval vm_compute in
  [ Py.str "公司名称"; Py.str "职位名称"; Py.str "工作地点";
    Py.str "薪资范围"; Py.str "工作经验"; Py.str "学历要求";
    Py.str "职位标签"; Py.str "所需技能"; Py.str "公司规模";
    Py.str "公司阶段"; Py.str "所属行业"; Py.str "岗位描述" ].

(** [get_job_url] (lines 37-60); a category missing from [job_dict] is
    formatted as [None]. *)
Definition get_job_url (except_job : Py.dict pystr pystr)
    (city jobType : pystr) : pystr :=
  let job := default [] (Py.get except_job (Py.str "job")) in
  let position := default (Py.str "None") (Py.get job_dict job) in
  Py.str "https://www.zhipin.com/web/geek/jobs?city=" ++ city
  ++ Py.str "&position=" ++ position ++ Py.str "&jobType=" ++ jobType.

(** ** The environment of one crawl *)

(** The payload of a [job/detail.json] response, reduced to the keys the
    crawler reads; [None] is an absent key, for which [.get] returns its
    default. *)
Inductive skills :=
| SkillsAbsent
| SkillsList (l : list pystr)
| SkillsBad.                  (* a value [",".join] raises on *)

Record detail := {
  postDescription : option pystr;
  jobName : option pystr;
  address : option pystr;
  salaryDesc : option pystr;
  jobExperience : option pystr;
  degreeName : option pystr;
  experienceName : option pystr;
  showSkills : skills;
  brandName : option pystr;
  scaleName : option pystr;
  stageName : option pystr;
  industryName : option pystr }.

(** What [response.json()] gives for a detail response: a payload; a
    value on which one of the lookups of lines 209-213 raises (not an
    object, or a description that is not a string); or a payload whose
    [brandComInfo] is not an object, so that the first [brand_com_info.get]
    raises, and of which only the [jobInfo] keys of [d] are read. *)
Inductive json_data :=
| Malformed
| Detail (d : detail)
| Brandless (d : detail).

(** A network response: its URL and its body, [None] when
    [response.json()] raises. *)
Record response := {
  url : pystr;
  json : option json_data }.

(** What happens when a card is scrolled into view and clicked: the
    scroll or the click raises, or the click goes through and some
    responses arrive before the wait of lines 197-201 is over. *)
Inductive card :=
| ClickFails
| Clicked (arrivals : list response).

(** The pager as lines 278-294 see it. *)
Inductive pager :=
| PagerRaises
| Pager (count : Z) (class_attr : option pystr) (click_ok : bool).

Record page_view := {
  heights : nat -> Z;         (* readings of [document.body.scrollHeight] *)
  dom_ok : bool;              (* [false]: a call outside the card [try] raises *)
  cards : list card;
  next_button : pager }.

Inductive nav_stage := WarmUp | Target | Marker.

Inductive nav_outcome :=
| NavReady
| NavTimeout (stage : nav_stage)
| NavError.                   (* an exception that is not a timeout *)

Record site := {
  now : Z;                    (* [int(time.time())] *)
  launch_ok : bool;
  nav : Z -> nav_outcome;     (* by attempt *)
  reload_ok : Z -> bool;      (* the reload after a failed attempt *)
  pages : Z -> page_view }.   (* by [page_num] *)

(** ** Exceptions and results *)

Inductive exn :=
| LoadFailed (max_retries : Z)     (* the [Exception] of line 146 *)
| PlaywrightTimeoutError
| PlaywrightError
| TypeError
| FileNotFoundError
| UnicodeEncodeError
| KeyError (key : pystr)
| ValueError (unknown : list pystr).

(** [Running]: the model ran out of fuel, the program is still crawling. *)
Inductive result (A : Type) :=
| Returned (a : A)
| Raised (e : exn)
| Running.
Arguments Returned {A} a.
Arguments Raised {A} e.
Arguments Running {A}.

(** ** The crawl session (lines 150-298) *)

Abbreviation job_data := (Py.dict pystr pystr).

(** The lines written through [pbar.write]. *)
Inductive log_line :=
| LogScrolling (page : Z)
| LogHeightStable (scrolls : Z)
| LogScrolledFive
| LogNoCards (page : Z)
| LogFound (page n : Z)
| LogNoResponse
| LogFilteredShort (len min : Z)
| LogFilteredEnglish
| LogAccepted (valid max : Z)
| LogCardError
| LogLastPage
| LogTurning (page : Z)
| LogNoNextButton
| LogPagerError.

Record session := {
  count : Z;
  valid_count : Z;
  filtered_count : Z;
  filtered_english_count : Z;
  page_num : Z;
  jobs_buffer : list job_data;
  progress : list log_line }.

Definition new_session : session :=
  {| count := 0; valid_count := 0; filtered_count := 0;
     filtered_english_count := 0; page_num := 1; jobs_buffer := [];
     progress := [] |}.

Definition write (l : log_line) (st : session) : session :=
  {| count := count st; valid_count := valid_count st;
     filtered_count := filtered_count st;
     filtered_english_count := filtered_english_count st;
     page_num := page_num st; jobs_buffer := jobs_buffer st;
     progress := progress st ++ [l] |}.

(** The dictionary of lines 240-253; [None] when the join of line 248
    raises. *)
Definition build_job_data (d : detail) (job_description : pystr)
    : option job_data :=
  let field (k : pystr) (v : option pystr) (dflt : pystr) :=
    (k, default dflt v) in
  match showSkills d with
  | SkillsBad => None
  | sk =>
    let skill_list := match sk with SkillsList l => l | _ => [] end in
    Some [ field (Py.str "公司名称") (brandName d) [];
           field (Py.str "职位名称") (jobName d) [];
           field (Py.str "工作地点") (address d) [];
           field (Py.str "薪资范围") (salaryDesc d) [];
           field (Py.str "工作经验") (jobExperience d) (Py.str "无要求");
           field (Py.str "学历要求") (degreeName d) [];
           field (Py.str "职位标签") (experienceName d) [];
           (Py.str "所需技能", Py.join (Py.str ",") skill_list);
           field (Py.str "公司规模") (scaleName d) [];
           field (Py.str "公司阶段") (stageName d) [];
           field (Py.str "所属行业") (industryName d) [];
           (Py.str "岗位描述", job_description) ]
  end.

(** The stripped [postDescription] of line 213; an absent key reads as
    the empty string. *)
Definition description_of (d : detail) : pystr :=
  Py.strip (default [] (postDescription d)).

(** [_parse_response] (lines 327-332) *)
Definition _parse_response (r : response)
    (captured_responses : list json_data) : list json_data :=
  match json r with
  | Some data => captured_responses ++ [data]
  | None => captured_responses
  end.

(** [handle_response] (lines 122-127) *)
Definition handle_response (r : response)
    (captured_responses : list json_data) : list json_data :=
  if Py.contains (Py.str "job/detail.json") (url r)
  then _parse_response r captured_responses
  else captured_responses.

(** The buffer at the end of the wait: cleared at line 192, then filled by
    the listener in the order of arrival. *)
Definition capture (arrivals : list response) : list json_data :=
  fold_left (fun captured_responses r => handle_response r captured_responses)
            arrivals [].

(** The body of the card loop, lines 191-269, for one card. *)
Definition process_card (max_count min_description_length : Z)
    (c : card) (st : session) : session :=
  match c with
  | ClickFails => write LogCardError st
  | Clicked arrivals =>
    match capture arrivals with
    | [] => write LogNoResponse st
    | Malformed :: _ => write LogCardError st
    | Detail d :: _ =>
      let job_description := description_of d in
      match filter_decision min_description_length job_description with
      | RejectShort =>
        write (LogFilteredShort (Py.len job_description)
                 min_description_length)
          {| count := count st; valid_count := valid_count st;
             filtered_count := filtered_count st + 1;
             filtered_english_count := filtered_english_count st;
             page_num := page_num st; jobs_buffer := jobs_buffer st;
             progress := progress st |}
      | RejectForeign =>
        write LogFilteredEnglish
          {| count := count st; valid_count := valid_count st;
             filtered_count := filtered_count st;
             filtered_english_count := filtered_english_count st + 1;
             page_num := page_num st; jobs_buffer := jobs_buffer st;
             progress := progress st |}
      | Accept =>
        match build_job_data d job_description with
        | None => write LogCardError st
        | Some job_data =>
          write (LogAccepted (valid_count st + 1) max_count)
            {| count := count st + 1; valid_count := valid_count st + 1;
               filtered_count := filtered_count st;
               filtered_english_count := filtered_english_count st;
               page_num := page_num st;
               jobs_buffer := jobs_buffer st ++ [job_data];
               progress := progress st |}
        end
      end
    | Brandless d :: _ =>
      (* [brand_com_info.get] raises where it is first evaluated: in the
         message of line 219 or of line 234, after the counter has moved,
         or at line 241, before the record is built *)
      let job_description := description_of d in
      match filter_decision min_description_length job_description with
      | RejectShort =>
        write LogCardError
          {| count := count st; valid_count := valid_count st;
             filtered_count := filtered_count st + 1;
             filtered_english_count := filtered_english_count st;
             page_num := page_num st; jobs_buffer := jobs_buffer st;
             progress := progress st |}
      | RejectForeign =>
        write LogCardError
          {| count := count st; valid_count := valid_count st;
             filtered_count := filtered_count st;
             filtered_english_count := filtered_english_count st + 1;
             page_num := page_num st; jobs_buffer := jobs_buffer st;
             progress := progress st |}
      | Accept => write LogCardError st
      end
    end
  end.

(** [for card in cards] with the quota test of line 188. *)
Fixpoint process_cards (max_count min_description_length : Z)
    (cs : list card) (st : session) : session :=
  match cs with
  | [] => st
  | c :: cs' =>
    if max_count <=? valid_count st then st
    else process_cards max_count min_description_length cs'
           (process_card max_count min_description_length c st)
  end.

(** The scroll loop of lines 165-175: [n] iterations are left, [k] were
    done, [last_height] is the previous reading. *)
Fixpoint scroll (v : page_view) (n k : nat) (last_height : Z) : log_line :=
  match n with
  | O => LogScrolledFive
  | S n' =>
    let new_height := heights v (S k) in
    if new_height =? last_height then LogHeightStable (Z.of_nat (S k))
    else scroll v n' (S k) new_height
  end.

Inductive loop_exit :=
| QuotaReached | NoCards | LastPage | NoNextButton | PagerFailed.

Inductive loop_result :=
| Exit (why : loop_exit)
| Crashed                     (* an exception left the loop *)
| OutOfFuel.

Definition turn_page (st : session) : session :=
  {| count := count st; valid_count := valid_count st;
     filtered_count := filtered_count st;
     filtered_english_count := filtered_english_count st;
     page_num := page_num st + 1; jobs_buffer := jobs_buffer st;
     progress := progress st |}.

(** [is_disabled and "disabled" in is_disabled] *)
Definition is_disabled (class_attr : option pystr) : bool :=
  match class_attr with
  | None => false
  | Some c => negb (Py.len c =? 0) && Py.contains (Py.str "disabled") c
  end.

(** The [while valid_count < max_count] loop of lines 162-298; one unit
    of fuel per page. *)
Fixpoint crawl_pages (fuel : nat) (s : site)
    (max_count min_description_length : Z) (st : session)
    : loop_result * session :=
  if negb (valid_count st <? max_count) then (Exit QuotaReached, st)
  else match fuel with
  | O => (OutOfFuel, st)
  | S fuel' =>
    let v := pages s (page_num st) in
    let st := write (LogScrolling (page_num st)) st in
    if negb (dom_ok v) then (Crashed, st)
    else
      let st := write (scroll v 5 0 (heights v 0%nat)) st in
      if Py.len (cards v) =? 0
      then (Exit NoCards, write (LogNoCards (page_num st)) st)
      else
        let st := write (LogFound (page_num st) (Py.len (cards v))) st in
        let st := process_cards max_count min_description_length (cards v) st in
        if max_count <=? valid_count st then (Exit QuotaReached, st)
        else match next_button v with
        | PagerRaises => (Exit PagerFailed, write LogPagerError st)
        | Pager n class_attr click_ok =>
          if 0 <? n then
            if is_disabled class_attr
            then (Exit LastPage, write LogLastPage st)
            else
              let st := write (LogTurning (page_num st + 1)) st in
              if click_ok
              then crawl_pages fuel' s max_count min_description_length
                     (turn_page st)
              else (Exit PagerFailed, write LogPagerError st)
          else (Exit NoNextButton, write LogNoNextButton st)
        end
  end.

(** ** Files, browser and console *)

(** A CSV file as the [csv] module presents it: rows of fields, the first
    row being the header. *)
Abbreviation csv_file := (list (list pystr)).

(** A value of a [csv.DictReader] row: a field, the [restval] of a short
    row, or the surplus fields of a long one. *)
Inductive cell :=
| Str (s : pystr)
| NoneCell
| Rest (l : list pystr).

(** A [DictReader] row, and so a line of the combined file ([json.dumps]
    writes each row on one line); the key [None] is the [restkey]. *)
Abbreviation json_row := (Py.dict (option pystr) cell).

Inductive event :=
| Makedirs (p : pystr)
| MkdirParent (p : pystr)
| WriteHeader (p : pystr)
| AppendRows (p : pystr) (rows : list (list pystr))
| BrowserLaunch
| Goto (attempt : Z)
| Reload (attempt : Z)
| BrowserClose
| OpenCombined (p : pystr) (append : bool)
| PrintCrawling (job_name job_code : pystr)
| PrintFailed (job_name : pystr) (e : exn)
| PrintNoOutput (job_name : pystr)
| PrintAdded (n : Z).

Record world := {
  csv_files : gmap pystr csv_file;
  jsonl_files : gmap pystr (list json_row);
  trace : list event }.

Definition emit (es : list event) (w : world) : world :=
  {| csv_files := csv_files w; jsonl_files := jsonl_files w;
     trace := trace w ++ es |}.

(** [open(p, "w")] followed by [writeheader()] (lines 86-104). *)
Definition write_header (p : pystr) (w : world) : world :=
  {| csv_files := <[p := [fieldnames]]> (csv_files w);
     jsonl_files := jsonl_files w;
     trace := trace w ++ [WriteHeader p] |}.

(** The rows [csv.DictWriter(f, fieldnames=jobs_buffer[0].keys())] writes
    for [writerows(jobs_buffer)]. *)
Definition writerows (jobs_buffer : list job_data) : list (list pystr) :=
  match jobs_buffer with
  | [] => []
  | first :: _ =>
    map (fun d => map (fun k => default [] (Py.get d k)) (Py.keys first))
        jobs_buffer
  end.

(** The code points [encoding="utf-8-sig"] cannot encode: the surrogates,
    which [response.json()] yields for an unpaired escape. *)
Definition is_surrogate (c : N) : bool := ((55296 <=? c) && (c <=? 57343))%N.

Definition encodable (row : list pystr) : bool :=
  forallb (forallb (fun c => negb (is_surrogate c))) row.

(** The rows of a batch that reach the file: [writerows] hands the rows to
    the file one at a time, the file encodes each row as it gets it, and
    the first row that cannot be encoded raises. *)
Fixpoint encoded (rows : list (list pystr)) : list (list pystr) :=
  match rows with
  | [] => []
  | row :: rest => if encodable row then row :: encoded rest else []
  end.

(** [open(p, "a")] followed by [writerows] (lines 302-304).  The [with]
    closes the file also when [writerows] raises, so the rows written
    before the exception stay in the file. *)
Definition append_rows (p : pystr) (rows : list (list pystr)) (w : world)
    : world * option exn :=
  ({| csv_files :=
        <[p := default [] (csv_files w !! p) ++ encoded rows]> (csv_files w);
      jsonl_files := jsonl_files w;
      trace := trace w ++ [AppendRows p (encoded rows)] |},
   if forallb encodable rows then None else Some UnicodeEncodeError).

(** [open(combined_path, mode)] with [mode = "a" if append else "w"]. *)
Definition open_combined (p : pystr) (append : bool) (w : world) : world :=
  {| csv_files := csv_files w;
     jsonl_files :=
       <[p := if append then default [] (jsonl_files w !! p) else []]>
         (jsonl_files w);
     trace := trace w ++ [OpenCombined p append] |}.

(** [combined_file.write(json.dumps(row) + "\n")] *)
Definition write_line (p : pystr) (row : json_row) (w : world) : world :=
  {| csv_files := csv_files w;
     jsonl_files := <[p := default [] (jsonl_files w !! p) ++ [row]]>
                      (jsonl_files w);
     trace := trace w |}.

(** ** Navigation with retries (lines 137-148) *)

(** [for attempt in range(max_retries)]: [n] iterations are left. *)
Fixpoint navigate (s : site) (max_retries : Z) (n : nat) (attempt : Z)
    : list event * option exn :=
  match n with
  | O => ([], None)
  | S n' =>
    match nav s attempt with
    | NavReady => ([Goto attempt], None)
    | NavError => ([Goto attempt], Some PlaywrightError)
    | NavTimeout _ =>
      if attempt =? max_retries - 1
      then ([Goto attempt], Some (LoadFailed max_retries))
      else if reload_ok s attempt
      then let (t, r) := navigate s max_retries n' (attempt + 1) in
           (Goto attempt :: Reload attempt :: t, r)
      else ([Goto attempt; Reload attempt], Some PlaywrightTimeoutError)
    end
  end.

(** ** One category: [get_job_details] (lines 63-323) *)

Definition output_path_of (output_dir : pystr) (s : site) : pystr :=
  output_dir ++ Py.str "/job_details_" ++ Py.str_of_int (now s)
  ++ Py.str ".csv".

(** The directory and the header (lines 82-104), the launch (106-117),
    navigation (137-148, before the [try] of line 158), the page loop
    (162-298), the batch write (301-304) and the [finally] that closes the
    browser (312-320).  An exception of the page loop or of the batch write
    passes through the [finally]; one of the launch or of navigation does
    not. *)
Definition get_job_details (fuel : nat) (browser : pystr -> site)
    (url : pystr) (max_count max_retries min_description_length : Z)
    (output_dir : pystr) (w : world) : world * result pystr :=
  let s := browser url in
  let w := emit [Makedirs output_dir] w in
  let output_path := output_path_of output_dir s in
  let w := write_header output_path w in
  if negb (launch_ok s) then (w, Raised PlaywrightError)
  else
    let w := emit [BrowserLaunch] w in
    match navigate s max_retries (Z.to_nat max_retries) 0 with
    | (t, Some e) => (emit t w, Raised e)
    | (t, None) =>
      let w := emit t w in
      match crawl_pages fuel s max_count min_description_length new_session with
      | (OutOfFuel, _) => (w, Running)
      | (Crashed, _) => (emit [BrowserClose] w, Raised PlaywrightError)
      | (Exit _, st) =>
        match jobs_buffer st with
        | [] => (emit [BrowserClose] w, Returned output_path)
        | _ =>
          match append_rows output_path (writerows (jobs_buffer st)) w with
          | (w, Some e) => (emit [BrowserClose] w, Raised e)
          | (w, None) => (emit [BrowserClose] w, Returned output_path)
          end
        end
      end
    end.

(** ** Merging a category file: [append_csv_to_jsonl] (lines 347-356) *)

(** One row of [csv.DictReader]. *)
Definition read_row (names row : list pystr) : json_row :=
  let d := Py.of_zip (map Some names) (map Str row) in
  let lf := length names in
  let lr := length row in
  if (lf <? lr)%nat then Py.set d None (Rest (skipn lf row))
  else fold_left (fun d k => Py.set d (Some k) NoneCell) (skipn lr names) d.

Definition is_blank (row : list pystr) : bool :=
  match row with [] => true | _ => false end.

(** The rows of [csv.DictReader(handle)]: the first row names the fields,
    blank rows are skipped. *)
Definition dict_reader (f : csv_file) : list json_row :=
  match f with
  | [] => []
  | names :: rows =>
    map (read_row names) (List.filter (fun r => negb (is_blank r)) rows)
  end.

(** The body of [for row in reader] of lines 351-355. *)
Fixpoint merge_rows (rows : list json_row) (combined_path : pystr)
    (job_name job_code : pystr) (count : Z) (w : world) : world * Z :=
  match rows with
  | [] => (w, count)
  | row :: rest =>
    let row := Py.set row (Some (Py.str "job_category")) (Str job_name) in
    let row := Py.set row (Some (Py.str "job_code")) (Str job_code) in
    merge_rows rest combined_path job_name job_code (count + 1)
      (write_line combined_path row w)
  end.

Definition append_csv_to_jsonl (csv_path combined_path : pystr)
    (job_name job_code : pystr) (w : world) : world * result Z :=
  match csv_files w !! csv_path with
  | None => (w, Raised FileNotFoundError)
  | Some f =>
    let (w, count) :=
      merge_rows (dict_reader f) combined_path job_name job_code 0 w in
    (w, Returned count)
  end.

(** ** The command line: [parse_job_names] (lines 335-344) *)

Definition is_empty (s : pystr) : bool :=
  match s with [] => true | _ => false end.

(** [[name.strip() for name in raw_jobs.split(",") if name.strip()]] *)
Definition requested_names (raw_jobs : pystr) : list pystr :=
  List.filter (fun name => negb (is_empty name))
              (map Py.strip (Py.split 44%N raw_jobs)).

Definition parse_job_names (raw_jobs : option pystr)
    : result (list pystr) :=
  match raw_jobs with
  | None | Some [] => Returned (Py.keys job_dict)
  | Some raw =>
    let names := requested_names raw in
    let unknown :=
      List.filter (fun name => negb (Py.mem job_dict name)) names in
    match unknown with
    | [] => Returned names
    | _ => Raised (ValueError unknown)
    end
  end.

(** ** The run: [crawl_jobs] (lines 359-394) and [main] (lines 410-433) *)

(** [await v] where [v] is a [str]: a [str] has no [__await__], Python
    raises [TypeError] (object str can't be used in 'await' expression). *)
Definition await_str (v : pystr) : result pystr := Raised TypeError.

(** [pathlib] on POSIX, as far as line 376 uses it. *)
Module Path.

(** The components of [Path(s)] below its root: the pieces between
    slashes, without the empty ones and the single dots. *)
Definition names (s : pystr) : list pystr :=
  List.filter
    (fun name => match name with [] | [46%N] => false | _ => true end)
    (Py.split 47%N s).

(** The root of [Path(s)]: two leading slashes are kept, any other number
    of them is one. *)
Definition root (s : pystr) : pystr :=
  match s with
  | 47%N :: 47%N :: 47%N :: _ => [47%N]
  | 47%N :: 47%N :: _ => [47%N; 47%N]
  | 47%N :: _ => [47%N]
  | _ => []
  end.

(** [str] of a path; the path without root and components is the dot. *)
Definition render (root : pystr) (names : list pystr) : pystr :=
  match root, names with
  | [], [] => [46%N]
  | _, _ => root ++ Py.join [47%N] names
  end.

(** [str(Path(s) / child)] *)
Definition joinpath (s child : pystr) : pystr :=
  match root child with
  | [] => render (root s) (names s ++ names child)
  | _ => render (root child) (names child)
  end.

End Path.

(** [for job_name in job_names], lines 371-394; [i] numbers the browser
    sessions of the run, and [web i] is what the [i]-th session sees. *)
Fixpoint crawl_each (fuel : nat) (web : nat -> pystr -> site) (i : nat)
    (job_names : list pystr) (output_dir combined_path : pystr)
    (max_count min_description_length : Z) (city job_type : pystr)
    (w : world) : world * result unit :=
  match job_names with
  | [] => (w, Returned tt)
  | job_name :: rest =>
    let continue w :=
      crawl_each fuel web (S i) rest output_dir combined_path max_count
        min_description_length city job_type w in
    match Py.get job_dict job_name with
    | None => (w, Raised (KeyError job_name))
    | Some job_code =>
      let w := emit [PrintCrawling job_name job_code] w in
      let url := get_job_url [(Py.str "job", job_name)] city job_type in
      let job_output_dir := Path.joinpath output_dir job_code in
      match get_job_details fuel (web i) url max_count 3
              min_description_length job_output_dir w with
      | (w, Running) => (w, Running)
      | (w, Raised exc) => continue (emit [PrintFailed job_name exc] w)
      | (w, Returned p) =>
        match await_str p with
        | Running => (w, Running)
        | Raised exc => continue (emit [PrintFailed job_name exc] w)
        | Returned csv_path =>
          if is_empty csv_path
             || negb (bool_decide (is_Some (csv_files w !! csv_path)))
          then continue (emit [PrintNoOutput job_name] w)
          else
            match append_csv_to_jsonl csv_path combined_path
                    job_name job_code w with
            | (w, Returned appended) => continue (emit [PrintAdded appended] w)
            | (w, Raised e) => (w, Raised e)
            | (w, Running) => (w, Running)
            end
        end
      end
    end
  end.

(** Calling an [async def] function runs none of its body; it returns a
    coroutine object, whose body runs only when something drives it. *)
Record coroutine (A : Type) := {
  body : nat -> world -> world * result A }.
Arguments body {A} c fuel w.

Definition crawl_jobs (web : nat -> pystr -> site)
    (job_names : list pystr) (output_dir combined_path : pystr)
    (max_count min_description_length : Z) (city job_type : pystr)
    (append : bool) : coroutine unit :=
  {| body := fun fuel w =>
       let w := open_combined combined_path append w in
       crawl_each fuel web 0 job_names output_dir combined_path max_count
         min_description_length city job_type w |}.

(** Driving a coroutine to its end, as an event loop does. *)
Definition drive {A} (c : coroutine A) (fuel : nat) (w : world)
    : world * result A :=
  body c fuel w.

Module Args.
(** The namespace [parse_args] returns (lines 397-407). *)
Record t := {
  jobs : option pystr;
  max_count : Z;
  min_description_length : Z;
  city : pystr;
  job_type : pystr;
  output_dir : pystr;
  combined_path : pystr;
  append : bool }.
End Args.

(** [main]: line 424 calls [crawl_jobs] and drops the coroutine it gets,
    nothing awaits or drives it. *)
Definition main (web : nat -> pystr -> site) (args : Args.t) (w : world)
    : world * result unit :=
  let w := emit [Makedirs (Args.output_dir args)] w in
  let w := emit [MkdirParent (Args.combined_path args)] w in
  match parse_job_names (Args.jobs args) with
  | Raised e => (w, Raised e)
  | Running => (w, Running)
  | Returned job_names =>
    let _ := crawl_jobs web job_names (Args.output_dir args)
               (Args.combined_path args) (Args.max_count args)
               (Args.min_description_length args) (Args.city args)
               (Args.job_type args) (Args.append args) in
    (w, Returned tt)
  end.

(** * Vocabulary of the statements *)

(** Navigation attempts and reloads in a trace. *)
Definition attempts (t : list event) : nat :=
  length (List.filter (fun e => match e with Goto _ => true | _ => false end) t).

Definition reloads (t : list event) : nat :=
  length (List.filter (fun e => match e with Reload _ => true | _ => false end) t).

(** The lines a processed card leaves in the log: one per card. *)
Definition is_card_line (l : log_line) : bool :=
  match l with
  | LogNoResponse | LogFilteredShort _ _ | LogFilteredEnglish
  | LogAccepted _ _ | LogCardError => true
  | _ => false
  end.

Definition is_accepted_line (l : log_line) : bool :=
  match l with LogAccepted _ _ => true | _ => false end.

Definition is_short_line (l : log_line) : bool :=
  match l with LogFilteredShort _ _ => true | _ => false end.

Definition is_english_line (l : log_line) : bool :=
  match l with LogFilteredEnglish => true | _ => false end.

Definition tally (p : log_line -> bool) (st : session) : Z :=
  Py.len (List.filter p (progress st)).

(** The number of cards the card loop has processed. *)
Definition visited (st : session) : Z := tally is_card_line st.

(** What a card adds to the buffer when it passes both filters. *)
Definition accepted_data (min_description_length : Z) (c : card)
    : option job_data :=
  match c with
  | ClickFails => None
  | Clicked arrivals =>
    match capture arrivals with
    | Detail d :: _ =>
      match filter_decision min_description_length (description_of d) with
      | Accept => build_job_data d (description_of d)
      | _ => None
      end
    | _ => None
    end
  end.

Fixpoint accepted_of (min_description_length : Z) (cs : list card)
    : list job_data :=
  match cs with
  | [] => []
  | c :: cs' =>
    match accepted_data min_description_length c with
    | Some job => job :: accepted_of min_description_length cs'
    | None => accepted_of min_description_length cs'
    end
  end.

(** The counters agree with the log and with the buffer.  A filter
    counter can be ahead of its lines in the log: a card whose message
    raises was counted before. *)
Record counted (st : session) : Prop := {
  counted_valid : valid_count st = tally is_accepted_line st;
  counted_short : tally is_short_line st <= filtered_count st;
  counted_english : tally is_english_line st <= filtered_english_count st;
  counted_sum :
    valid_count st + filtered_count st + filtered_english_count st
    <= visited st;
  counted_buffer : valid_count st = Py.len (jobs_buffer st);
  counted_count : count st = valid_count st }.

(** A site that never runs out of qualifying cards. *)
Definition inexhaustible (min_description_length : Z) (s : site) : Prop :=
  forall p,
    dom_ok (pages s p) = true
    /\ cards (pages s p) <> []
    /\ Forall (fun c => is_Some (accepted_data min_description_length c))
              (cards (pages s p))
    /\ exists n class_attr,
         next_button (pages s p) = Pager n class_attr true
         /\ 0 < n /\ is_disabled class_attr = false.

(** The writes to category files in a trace. *)
Definition is_file_event (e : event) : bool :=
  match e with
  | WriteHeader _ | AppendRows _ _ => true
  | _ => false
  end.

Definition file_events (t : list event) : list event :=
  List.filter is_file_event t.


(** A line of the combined file: the twelve fields of a row under the
    header names, then the two tags. *)
Definition tagged_record (job_name job_code : pystr) (row : list pystr)
    : json_row :=
  combine (map Some fieldnames) (map Str row)
  ++ [(Some (Py.str "job_category"), Str job_name);
      (Some (Py.str "job_code"), Str job_code)].

(** The two assignments of lines 352-353. *)
Definition tag (job_name job_code : pystr) (row : json_row) : json_row :=
  Py.set (Py.set row (Some (Py.str "job_category")) (Str job_name))
         (Some (Py.str "job_code")) (Str job_code).


(** The categories a run has started to crawl, from the lines of line
    373. *)
Fixpoint crawled (t : list event) : list pystr :=
  match t with
  | [] => []
  | PrintCrawling job_name _ :: t' => job_name :: crawled t'
  | _ :: t' => crawled t'
  end.

(** The browser sessions a run has launched. *)
Definition launches (t : list event) : nat :=
  length (List.filter
            (fun e => match e with BrowserLaunch => true | _ => false end) t).

(** ** Example inputs *)

Definition hello_world : pystr := Eval vm_compute in Py.str "Hello World 你好".

Definition empty_page : page_view :=
  {| heights := fun _ => 0; dom_ok := true; cards := [];
     next_button := Pager 0 None false |}.

(** A site on which the marker never shows up. *)
Definition always_timeout : site :=
  {| now := 1700000000; launch_ok := true;
     nav := fun _ => NavTimeout Marker; reload_ok := fun _ => true;
     pages := fun _ => empty_page |}.

Definition empty_world : world :=
  {| csv_files := ∅; jsonl_files := ∅; trace := [] |}.

(** A payload whose description passes both filters for a minimum of at
    most four characters. *)
Definition good_detail : detail :=
  {| postDescription := Some (Py.str "  你好你好 ");
     jobName := Some (Py.str "算法工程师"); address := None;
     salaryDesc := Some (Py.str "20-30K"); jobExperience := None;
     degreeName := None; experienceName := None;
     showSkills := SkillsList [Py.str "Python"; Py.str "SQL"];
     brandName := Some (Py.str "ACME"); scaleName := None;
     stageName := None; industryName := None |}.

(** A click answered by a tracking request and by the detail response. *)
Definition good_card : card :=
  Clicked
    [ {| url := Py.str "https://www.zhipin.com/wapi/zpCommon/data/track.json";
         json := Some Malformed |};
      {| url := Py.str "https://www.zhipin.com/wapi/zpgeek/job/detail.json";
         json := Some (Detail good_detail) |} ].

(** Two qualifying cards on every page, and always a next page. *)
Definition endless_page : page_view :=
  {| heights := fun k => Z.of_nat k; dom_ok := true;
     cards := [good_card; good_card];
     next_button := Pager 1 (Some (Py.str "next")) true |}.

Definition endless_site : site :=
  {| now := 1700000000; launch_ok := true; nav := fun _ => NavReady;
     reload_ok := fun _ => true; pages := fun _ => endless_page |}.

(** A category file with two rows, and a combined file that a previous
    run left with one line. *)
Definition sample_csv : csv_file :=
  [ fieldnames;
    map (fun _ => Py.str "a") fieldnames;
    map (fun _ => Py.str "b") fieldnames ].

Definition old_line : json_row :=
  tagged_record (Py.str "Golang") (Py.str "100116")
    (map (fun _ => Py.str "old") fieldnames).

Definition prior_world : world :=
  {| csv_files := {[ Py.str "java.csv" := sample_csv ]};
     jsonl_files := {[ Py.str "all.jsonl" := [old_line] ]};
     trace := [] |}.

(** A run over the category Java on [endless_site], with a quota of 3. *)
Definition java_run (append : bool) : coroutine unit :=
  crawl_jobs (fun _ _ => endless_site) [Py.str "Java"] (Py.str "out")
    (Py.str "all.jsonl") 3 4 (Py.str "100010000") (Py.str "1901") append.

Definition java_csv_path : pystr :=
  output_path_of (Py.str "out/100101") endless_site.

Definition sample_args (jobs : option pystr) (append : bool) : Args.t :=
  {| Args.jobs := jobs; Args.max_count := 3;
     Args.min_description_length := 4;
     Args.city := Py.str "100010000"; Args.job_type := Py.str "1901";
     Args.output_dir := Py.str "out";
     Args.combined_path := Py.str "all.jsonl"; Args.append := append |}.

(** The search page of the category Java, as [crawl_jobs] asks for it. *)
Definition java_url : pystr :=
  get_job_url [(Py.str "job", Py.str "Java")] (Py.str "100010000")
    (Py.str "1901").



(** ** Vocabulary of the further properties *)

(** [n] failed attempts from [attempt] on, each followed by its reload. *)
Fixpoint retries_trace (n : nat) (attempt : Z) : list event :=
  match n with
  | O => []
  | S n' => Goto attempt :: Reload attempt :: retries_trace n' (attempt + 1)
  end.

(** The calls of [browser.close()] in a trace. *)
Definition closes (t : list event) : nat :=
  length (List.filter
            (fun e => match e with BrowserClose => true | _ => false end) t).

(** The category files created in a trace. *)
Definition headers (t : list event) : nat :=
  length (List.filter
            (fun e => match e with WriteHeader _ => true | _ => false end) t).

(** What the listener keeps of a response: the body of a detail response
    that parses, nothing otherwise. *)
Definition detail_payload (r : response) : option json_data :=
  if Py.contains (Py.str "job/detail.json") (url r) then json r else None.

Fixpoint detail_payloads (arrivals : list response) : list json_data :=
  match arrivals with
  | [] => []
  | r :: rest =>
    match detail_payload r with
    | Some data => data :: detail_payloads rest
    | None => detail_payloads rest
    end
  end.

(** The description column of a buffered record. *)
Definition description_field (job : job_data) : pystr :=
  default [] (Py.get job (Py.str "岗位描述")).

(** The skills column of a buffered record. *)
Definition skills_field (job : job_data) : pystr :=
  default [] (Py.get job (Py.str "所需技能")).

(** A record built at lines 240-253 from a payload that passed both
    filters. *)
Definition built_from (min_description_length : Z) (job : job_data) : Prop :=
  exists d : detail,
    build_job_data d (description_of d) = Some job
    /\ filter_decision min_description_length (description_of d) = Accept.


(** A page after which the loop cannot go on: the page raises, shows no
    card, or its pager cannot be followed. *)
Definition stops_at (v : page_view) : bool :=
  negb (dom_ok v)
  || (Py.len (cards v) =? 0)
  || match next_button v with
     | PagerRaises => true
     | Pager n class_attr click_ok =>
       negb (0 <? n) || is_disabled class_attr || negb click_ok
     end.

(** The events of the navigation loop. *)
Definition is_nav_event (e : event) : bool :=
  match e with
  | Goto _ | Reload _ => true
  | _ => false
  end.

(** ** Further example inputs *)

(** The marker shows up on the second attempt. *)
Definition second_try_site : site :=
  {| now := 1700000000; launch_ok := true;
     nav := fun a => if a =? 0 then NavTimeout Marker else NavReady;
     reload_ok := fun _ => true; pages := fun _ => empty_page |}.

(** The first attempt times out, and so does the reload after it. *)
Definition stuck_reload_site : site :=
  {| now := 1700000000; launch_ok := true;
     nav := fun _ => NavTimeout Target; reload_ok := fun _ => false;
     pages := fun _ => empty_page |}.

(** A payload without a description. *)
Definition bare_detail : detail :=
  {| postDescription := None; jobName := None; address := None;
     salaryDesc := None; jobExperience := None; degreeName := None;
     experienceName := None; showSkills := SkillsAbsent; brandName := None;
     scaleName := None; stageName := None; industryName := None |}.

Definition detail_response (d : detail) : response :=
  {| url := Py.str "https://www.zhipin.com/wapi/zpgeek/job/detail.json";
     json := Some (Detail d) |}.

Definition other_response : response :=
  {| url := Py.str "https://www.zhipin.com/wapi/zpCommon/data/track.json";
     json := Some Malformed |}.

(** Two pages: a qualifying card and a card without description on the
    first, a qualifying card on the second, whose pager is disabled. *)
Definition two_page_site : site :=
  {| now := 1700000000; launch_ok := true; nav := fun _ => NavReady;
     reload_ok := fun _ => true;
     pages := fun p =>
       if p =? 1
       then {| heights := fun k => Z.of_nat k; dom_ok := true;
               cards := [good_card; Clicked [detail_response bare_detail]];
               next_button := Pager 1 (Some (Py.str "next")) true |}
       else {| heights := fun _ => 0; dom_ok := true;
               cards := [good_card];
               next_button := Pager 1 (Some (Py.str "next disabled")) true |} |}.

(** * Properties *)

(** ** The filter *)

Section Filter.

Variable min_description_length : Z.

Lemma short_iff (d : pystr) :
  Py.len d < min_description_length
  <-> filter_decision min_description_length d = RejectShort.
Proof.
  unfold filter_decision.
  destruct (Z.ltb_spec (Py.len d) min_description_length) as [Hlt | Hge].
  - split; [reflexivity | intros _; exact Hlt].
  - split; [lia |].
    destruct (PrimFloat.ltb _ _); discriminate.
Qed.

Lemma long_enough (d : pystr) :
  min_description_length <= Py.len d ->
  filter_decision min_description_length d
  = if PrimFloat.ltb english_limit (english_ratio d)
    then RejectForeign else Accept.
Proof.
  intros Hge. unfold filter_decision.
  destruct (Z.ltb_spec (Py.len d) min_description_length); [lia | reflexivity].
Qed.

Lemma empty_not_foreign :
  filter_decision min_description_length [] <> RejectForeign.
Proof.
  unfold filter_decision.
  destruct (Py.len [] <? min_description_length); [discriminate |].
  change (english_ratio []) with PrimFloat.zero.
  replace (PrimFloat.ltb english_limit PrimFloat.zero) with false
    by (vm_compute; reflexivity).
  discriminate.
Qed.

End Filter.

Lemma len_zero {A} (l : list A) : Py.len l = 0 -> l = [].
Proof. destruct l; [reflexivity | unfold Py.len; simpl; lia]. Qed.

(** C1. The length test comes first: a description is rejected as short
    exactly when it is shorter than [min_description_length]; the ratio
    decides only for descriptions that are long enough; an empty
    description has ratio 0, is never rejected as foreign, and is rejected
    as short as soon as the minimum is positive; 150 characters against a
    minimum of 200 are rejected as short whatever they are. *)
Theorem filter_decision_order (min_description_length : Z) (d : pystr) :
  (Py.len d < min_description_length
   <-> filter_decision min_description_length d = RejectShort)
  /\ (min_description_length <= Py.len d ->
      filter_decision min_description_length d
      = if PrimFloat.ltb english_limit (english_ratio d)
        then RejectForeign else Accept)
  /\ (Py.len d = 0 ->
      english_ratio d = PrimFloat.zero
      /\ filter_decision min_description_length d <> RejectForeign
      /\ (0 < min_description_length ->
          filter_decision min_description_length d = RejectShort))
  /\ (Py.len d = 150 -> filter_decision 200 d = RejectShort).
Proof.
  split; [apply short_iff |].
  split; [apply long_enough |].
  split.
  - intros H0. apply len_zero in H0. subst d.
    split; [reflexivity |].
    split; [apply empty_not_foreign |].
    intros Hpos. apply short_iff. exact Hpos.
  - intros H150. apply short_iff. lia.
Qed.

(** A description of 150 ASCII letters (ratio 1) against the default
    minimum of 200. *)
Lemma filter_decision_order_witness :
  filter_decision 200 (repeat 97%N 150) = RejectShort.
Proof.
  apply (proj2 (proj2 (proj2 (filter_decision_order 200 (repeat 97%N 150))))).
  reflexivity.
Defined.

Lemma hello_world_decision (min_description_length : Z) :
  filter_decision min_description_length hello_world
  = if 14 <? min_description_length then RejectShort else RejectForeign.
Proof.
  unfold filter_decision.
  change (Py.len hello_world) with 14.
  destruct (14 <? min_description_length); [reflexivity |].
  replace (PrimFloat.ltb english_limit (english_ratio hello_world)) with true
    by (vm_compute; reflexivity).
  reflexivity.
Qed.

(** C5, as the code has it. The threshold is the literal of line 231 and
    not a parameter: a description is rejected as foreign exactly when it is
    long enough and its ratio exceeds that literal.  "Hello World 你好" has
    10 ASCII letters among 14 characters; it is rejected as foreign when
    the minimum length lets it through and as short otherwise. *)
Theorem english_limit_is_fixed (min_description_length : Z) :
  (forall d,
     filter_decision min_description_length d = RejectForeign
     <-> min_description_length <= Py.len d
         /\ PrimFloat.ltb 0x1.3333333333333p-2 (english_ratio d) = true)
  /\ english_chars hello_world = 10
  /\ Py.len hello_world = 14
  /\ filter_decision min_description_length hello_world
     = if 14 <? min_description_length then RejectShort else RejectForeign.
Proof.
  split.
  { intros d. split.
    - intros H. unfold filter_decision in H.
      destruct (Z.ltb_spec (Py.len d) min_description_length); [discriminate |].
      split; [assumption |].
      fold english_limit.
      destruct (PrimFloat.ltb english_limit (english_ratio d));
        [reflexivity | discriminate].
    - intros [Hge Hr]. rewrite long_enough by exact Hge.
      fold english_limit in Hr. rewrite Hr. reflexivity. }
  split; [reflexivity |].
  split; [reflexivity |].
  apply hello_world_decision.
Qed.

(** C5, counterexample. With the default minimum of 200 the description
    is rejected as short, not as foreign, and no value of the only filter
    parameter the code has makes it accepted. *)
Lemma hello_world_never_accepted :
  filter_decision 200 hello_world = RejectShort
  /\ filter_decision 14 hello_world = RejectForeign
  /\ ~ (exists m, filter_decision m hello_world = Accept).
Proof.
  split; [reflexivity |].
  split; [vm_compute; reflexivity |].
  intros [m Hm].
  rewrite hello_world_decision in Hm. destruct (14 <? m); discriminate.
Qed.

(** ** Navigation *)

(** When every attempt times out and every reload returns, [max_retries]
    attempts are made, with a reload between two of them. *)
Lemma navigate_all_timeout (s : site) (max_retries : Z) :
  forall (n : nat) (attempt : Z),
    (0 < n)%nat ->
    attempt + Z.of_nat n = max_retries ->
    (forall a, attempt <= a < max_retries ->
               exists stage, nav s a = NavTimeout stage) ->
    (forall a, attempt <= a < max_retries - 1 -> reload_ok s a = true) ->
    let r := navigate s max_retries n attempt in
    attempts (fst r) = n
    /\ reloads (fst r) = (n - 1)%nat
    /\ snd r = Some (LoadFailed max_retries).
Proof.
  induction n as [| n IH]; intros attempt Hpos Hsum Hnav Hrel; [lia |].
  cbn [navigate].
  destruct (Hnav attempt ltac:(lia)) as [stage ->].
  destruct (Z.eqb_spec attempt (max_retries - 1)) as [Hlast | Hmore].
  - assert (n = 0%nat) by lia. subst n. cbn. auto.
  - rewrite Hrel by lia.
    specialize (IH (attempt + 1) ltac:(lia) ltac:(lia)).
    destruct (navigate s max_retries n (attempt + 1)) as [t r].
    cbn in IH |- *.
    destruct IH as (Ha & Hr & He).
    + intros a Ha. apply Hnav. lia.
    + intros a Ha. apply Hrel. lia.
    + unfold attempts, reloads in *. cbn. repeat split; [lia | lia | exact He].
Qed.

Lemma navigate_three (s : site) :
  (forall a, 0 <= a < 3 -> exists stage, nav s a = NavTimeout stage) ->
  (forall a, 0 <= a < 2 -> reload_ok s a = true) ->
  navigate s 3 (Z.to_nat 3) 0
  = ([Goto 0; Reload 0; Goto 1; Reload 1; Goto 2], Some (LoadFailed 3)).
Proof.
  intros Hnav Hrel.
  destruct (Hnav 0 ltac:(lia)) as [s0 H0].
  destruct (Hnav 1 ltac:(lia)) as [s1 H1].
  destruct (Hnav 2 ltac:(lia)) as [s2 H2].
  pose proof (Hrel 0 ltac:(lia)) as R0.
  pose proof (Hrel 1 ltac:(lia)) as R1.
  change (Z.to_nat 3) with 3%nat.
  cbn [navigate].
  change (3 - 1) with 2. change (0 + 1) with 1. change (1 + 1) with 2.
  rewrite H0, R0, H1, R1, H2. reflexivity.
Qed.

(** C2, as the code has it. With [max_retries = 3], timeouts on every
    attempt and reloads that return, the page is tried three times, with a
    reload after the first and after the second failure; the third failure
    raises the exception of line 146, which ends [get_job_details] and
    leaves the category file with its header only. *)
Theorem navigation_gives_up_after_three_attempts
    (fuel : nat) (browser : pystr -> site) (url : pystr)
    (max_count min_description_length : Z) (output_dir : pystr) (w : world) :
  launch_ok (browser url) = true ->
  (forall a, 0 <= a < 3 -> exists stage, nav (browser url) a = NavTimeout stage) ->
  (forall a, 0 <= a < 2 -> reload_ok (browser url) a = true) ->
  let output_path := output_path_of output_dir (browser url) in
  let r := get_job_details fuel browser url max_count 3
             min_description_length output_dir w in
  navigate (browser url) 3 (Z.to_nat 3) 0
  = ([Goto 0; Reload 0; Goto 1; Reload 1; Goto 2], Some (LoadFailed 3))
  /\ snd r = Raised (LoadFailed 3)
  /\ trace (fst r)
     = trace w ++ [Makedirs output_dir; WriteHeader output_path; BrowserLaunch;
                   Goto 0; Reload 0; Goto 1; Reload 1; Goto 2]
  /\ csv_files (fst r) !! output_path = Some [fieldnames].
Proof.
  intros Hlaunch Hnav Hrel output_path r.
  pose proof (navigate_three _ Hnav Hrel) as Hthree.
  split; [exact Hthree |].
  subst r. unfold get_job_details.
  rewrite Hlaunch, Hthree. cbn [negb fst snd].
  split; [reflexivity |].
  split.
  - cbn [emit write_header trace]. rewrite <- !app_assoc. reflexivity.
  - cbn [emit write_header csv_files]. apply lookup_insert_eq.
Qed.

Lemma navigation_gives_up_after_three_attempts_witness :
  attempts (fst (navigate always_timeout 3 (Z.to_nat 3) 0)) = 3%nat
  /\ reloads (fst (navigate always_timeout 3 (Z.to_nat 3) 0)) = 2%nat
  /\ snd (get_job_details 3 (fun _ => always_timeout) java_url 200 3 200
            (Py.str "out") empty_world)
     = Raised (LoadFailed 3)
  /\ trace (fst (get_job_details 3 (fun _ => always_timeout) java_url 200 3
                   200 (Py.str "out") empty_world))
     = [Makedirs (Py.str "out");
        WriteHeader (output_path_of (Py.str "out") always_timeout);
        BrowserLaunch; Goto 0; Reload 0; Goto 1; Reload 1; Goto 2]
  /\ csv_files (fst (get_job_details 3 (fun _ => always_timeout) java_url 200
                       3 200 (Py.str "out") empty_world))
     !! output_path_of (Py.str "out") always_timeout
     = Some [fieldnames].
Proof.
  destruct (navigation_gives_up_after_three_attempts
              3 (fun _ => always_timeout) java_url 200 200 (Py.str "out")
              empty_world)
    as (Hn & Hr & Ht & Hf).
  - reflexivity.
  - intros a _. exists Marker. reflexivity.
  - intros a _. reflexivity.
  - rewrite Hn. split; [reflexivity |]. split; [reflexivity |].
    split; [exact Hr |]. split; [exact Ht | exact Hf].
Defined.

(** C2, counterexample. Three attempts and two reloads, not four and
    three. *)
Lemma three_attempts_not_four :
  navigate always_timeout 3 (Z.to_nat 3) 0
  = ([Goto 0; Reload 0; Goto 1; Reload 1; Goto 2], Some (LoadFailed 3))
  /\ attempts (fst (navigate always_timeout 3 (Z.to_nat 3) 0)) = 3%nat
  /\ reloads (fst (navigate always_timeout 3 (Z.to_nat 3) 0)) = 2%nat
  /\ attempts (fst (navigate always_timeout 3 (Z.to_nat 3) 0)) <> 4%nat
  /\ reloads (fst (navigate always_timeout 3 (Z.to_nat 3) 0)) <> 3%nat.
Proof. repeat split; discriminate. Qed.

(** ** The card loop *)

Section Cards.

Variables max_count min_description_length : Z.

Local Abbreviation step := (process_card max_count min_description_length).
Local Abbreviation steps := (process_cards max_count min_description_length).

Lemma tally_write (p : log_line -> bool) (l : log_line) (st : session) :
  tally p (write l st) = tally p st + (if p l then 1 else 0).
Proof.
  unfold tally, write, Py.len; cbn [progress].
  rewrite List.filter_app, length_app; cbn [List.filter].
  destruct (p l); cbn [length]; lia.
Qed.

(** What one card does to the session. *)
Lemma process_card_accepted (c : card) (st : session) (job : job_data) :
  accepted_data min_description_length c = Some job ->
  step c st
  = write (LogAccepted (valid_count st + 1) max_count)
      {| count := count st + 1; valid_count := valid_count st + 1;
         filtered_count := filtered_count st;
         filtered_english_count := filtered_english_count st;
         page_num := page_num st;
         jobs_buffer := jobs_buffer st ++ [job];
         progress := progress st |}.
Proof.
  unfold process_card, accepted_data.
  destruct c as [| arrivals]; try discriminate.
  destruct (capture arrivals) as [| [| d | d] rest]; try discriminate.
  destruct (filter_decision _ _); try discriminate.
  intros ->. reflexivity.
Qed.

Lemma process_card_rejected (c : card) (st : session) :
  accepted_data min_description_length c = None ->
  valid_count (step c st) = valid_count st
  /\ jobs_buffer (step c st) = jobs_buffer st
  /\ count (step c st) = count st.
Proof.
  unfold process_card, accepted_data.
  destruct c as [| arrivals]; try (intros _; repeat split; reflexivity).
  destruct (capture arrivals) as [| [| d | d] rest];
    try (intros _; repeat split; reflexivity).
  - destruct (filter_decision _ _);
      try (intros _; repeat split; reflexivity).
    intros ->. repeat split; reflexivity.
  - destruct (filter_decision _ _); intros _; repeat split; reflexivity.
Qed.

(** Every card leaves one card line and moves at most one counter, by
    one. *)
Lemma process_card_step (c : card) (st : session) :
  visited (step c st) = visited st + 1
  /\ page_num (step c st) = page_num st
  /\ ((valid_count (step c st) = valid_count st
       /\ filtered_count (step c st) = filtered_count st
       /\ filtered_english_count (step c st) = filtered_english_count st)
      \/ (valid_count (step c st) = valid_count st + 1
          /\ filtered_count (step c st) = filtered_count st
          /\ filtered_english_count (step c st) = filtered_english_count st)
      \/ (valid_count (step c st) = valid_count st
          /\ filtered_count (step c st) = filtered_count st + 1
          /\ filtered_english_count (step c st) = filtered_english_count st)
      \/ (valid_count (step c st) = valid_count st
          /\ filtered_count (step c st) = filtered_count st
          /\ filtered_english_count (step c st)
             = filtered_english_count st + 1)).
Proof.
  unfold process_card, visited.
  destruct c as [| arrivals]; [| destruct (capture arrivals) as [| [| d | d] rest]];
    rewrite ?tally_write; cbn;
    try (split; [reflexivity | split; [reflexivity | left; auto]]).
  - destruct (filter_decision _ _).
    + destruct (build_job_data _ _); rewrite tally_write; cbn;
        (split; [reflexivity | split; [reflexivity |]]);
        [right; left; auto | left; auto].
    + rewrite tally_write; cbn.
      split; [reflexivity | split; [reflexivity |]]. right; right; left; auto.
    + rewrite tally_write; cbn.
      split; [reflexivity | split; [reflexivity |]]. right; right; right; auto.
  - destruct (filter_decision _ _); rewrite tally_write; cbn;
      (split; [reflexivity | split; [reflexivity |]]);
      [left; auto | right; right; left; auto | right; right; right; auto].
Qed.

Lemma process_card_counted (c : card) (st : session) :
  counted st -> counted (step c st).
Proof.
  intros [Hv Hs He Hsum Hb Hc].
  unfold visited in Hsum.
  unfold process_card.
  destruct c as [| arrivals]; [| destruct (capture arrivals) as [| [| d | d] rest]];
    try (constructor; unfold visited; rewrite ?tally_write; cbn; lia).
  - destruct (filter_decision _ _).
    + destruct (build_job_data _ _).
      * constructor; unfold visited; rewrite ?tally_write; cbn;
          unfold tally, Py.len in *; cbn; rewrite ?length_app; cbn; lia.
      * constructor; unfold visited; rewrite ?tally_write; cbn; lia.
    + constructor; unfold visited; rewrite ?tally_write; cbn;
        unfold tally in *; cbn; lia.
    + constructor; unfold visited; rewrite ?tally_write; cbn;
        unfold tally in *; cbn; lia.
  - destruct (filter_decision _ _);
      constructor; unfold visited; rewrite ?tally_write; cbn;
      unfold tally in *; cbn; lia.
Qed.

Lemma process_cards_counted (cs : list card) :
  forall st, counted st -> counted (steps cs st).
Proof.
  induction cs as [| c cs IH]; intros st Hst; cbn [process_cards]; [exact Hst |].
  destruct (max_count <=? valid_count st); [exact Hst |].
  apply IH, process_card_counted, Hst.
Qed.

Lemma process_cards_page (cs : list card) :
  forall st, page_num (steps cs st) = page_num st.
Proof.
  induction cs as [| c cs IH]; intros st; cbn [process_cards]; [reflexivity |].
  destruct (max_count <=? valid_count st); [reflexivity |].
  rewrite IH. apply process_card_step.
Qed.

(** The buffer after a page: the records of the qualifying cards, in
    order, up to what the quota still allows. *)
Lemma process_cards_buffer (cs : list card) :
  forall st,
    valid_count st <= max_count ->
    let room := Z.to_nat (max_count - valid_count st) in
    jobs_buffer (steps cs st)
    = jobs_buffer st ++ firstn room (accepted_of min_description_length cs)
    /\ valid_count (steps cs st)
       = valid_count st
         + Py.len (firstn room (accepted_of min_description_length cs)).
Proof.
  induction cs as [| c cs IH]; intros st Hle; cbn [process_cards].
  - cbn [accepted_of]. rewrite firstn_nil, app_nil_r.
    unfold Py.len; cbn. split; [reflexivity | lia].
  - destruct (Z.leb_spec max_count (valid_count st)) as [Hfull | Hroom].
    + replace (Z.to_nat (max_count - valid_count st)) with 0%nat by lia.
      rewrite firstn_O, app_nil_r. unfold Py.len; cbn. split; [reflexivity | lia].
    + assert (Z.to_nat (max_count - valid_count st)
              = S (Z.to_nat (max_count - (valid_count st + 1)))) as Hr by lia.
      cbn [accepted_of].
      destruct (accepted_data min_description_length c) as [job |] eqn:Hc.
      * rewrite (process_card_accepted c st job Hc).
        specialize (IH (write (LogAccepted (valid_count st + 1) max_count)
          {| count := count st + 1; valid_count := valid_count st + 1;
             filtered_count := filtered_count st;
             filtered_english_count := filtered_english_count st;
             page_num := page_num st;
             jobs_buffer := jobs_buffer st ++ [job];
             progress := progress st |})).
        cbn [write valid_count jobs_buffer] in IH.
        destruct IH as [Hb Hv]; [lia |].
        rewrite Hb, Hv, Hr. cbn [firstn].
        rewrite <- app_assoc. cbn [app].
        unfold Py.len; cbn [length]. split; [reflexivity | lia].
      * destruct (process_card_rejected c st Hc) as (Hv & Hb & _).
        destruct (IH (step c st)) as [Hb' Hv']; [lia |].
        rewrite Hb', Hv', Hv, Hb.
        split; reflexivity.
Qed.

Lemma process_cards_valid (cs : list card) (st : session) :
  valid_count st <= max_count ->
  valid_count (steps cs st)
  = Z.min max_count
      (valid_count st + Py.len (accepted_of min_description_length cs)).
Proof.
  intros Hle.
  destruct (process_cards_buffer cs st Hle) as [_ Hv].
  rewrite Hv. unfold Py.len. rewrite length_firstn. lia.
Qed.

(** When every card qualifies, the cards visited are the cards
    accepted. *)
Lemma process_cards_all_qualify (cs : list card) :
  Forall (fun c => is_Some (accepted_data min_description_length c)) cs ->
  forall st,
    visited (steps cs st) - visited st
    = valid_count (steps cs st) - valid_count st.
Proof.
  induction 1 as [| c cs [job Hc] _ IH]; intros st; cbn [process_cards];
    [lia |].
  destruct (max_count <=? valid_count st); [lia |].
  specialize (IH (step c st)).
  pose proof (process_card_step c st) as (Hvis & _ & _).
  assert (valid_count (step c st) = valid_count st + 1) as Hval
    by (rewrite (process_card_accepted c st job Hc); reflexivity).
  lia.
Qed.

Lemma accepted_of_all (cs : list card) :
  Forall (fun c => is_Some (accepted_data min_description_length c)) cs ->
  length (accepted_of min_description_length cs) = length cs.
Proof.
  induction 1 as [| c cs [job Hc] _ IH]; [reflexivity |].
  cbn [accepted_of]. rewrite Hc. cbn [length]. rewrite IH. reflexivity.
Qed.

End Cards.

(** ** The page loop *)

Lemma scroll_not_card (v : page_view) :
  forall n k h, is_card_line (scroll v n k h) = false.
Proof.
  induction n as [| n IH]; intros k h; cbn [scroll]; [reflexivity |].
  destruct (heights v (S k) =? h); [reflexivity | apply IH].
Qed.

(** A property of the session that the page-level steps and the card
    steps preserve holds when the loop stops, and at every point where the
    model runs out of fuel. *)
Section LoopInvariant.

Variables (s : site) (max_count min_description_length : Z).
Variable P : session -> Prop.

Hypothesis P_write :
  forall l st, is_card_line l = false -> P st -> P (write l st).
Hypothesis P_card :
  forall c st,
    valid_count st < max_count -> P st ->
    P (process_card max_count min_description_length c st).
Hypothesis P_turn : forall st, P st -> P (turn_page st).

Lemma process_cards_invariant (cs : list card) :
  forall st, P st -> P (process_cards max_count min_description_length cs st).
Proof.
  induction cs as [| c cs IH]; intros st Hst; cbn [process_cards]; [exact Hst |].
  destruct (Z.leb_spec max_count (valid_count st)); [exact Hst |].
  apply IH, P_card; assumption.
Qed.

Lemma crawl_pages_invariant (fuel : nat) :
  forall st,
    P st -> P (snd (crawl_pages fuel s max_count min_description_length st)).
Proof.
  induction fuel as [| fuel IH]; intros st Hst; cbn [crawl_pages].
  - destruct (negb _); exact Hst.
  - destruct (negb (valid_count st <? max_count)); [exact Hst |].
    destruct (negb (dom_ok _)); [apply P_write; [reflexivity | exact Hst] |].
    destruct (Py.len _ =? 0).
    { repeat (apply P_write; [reflexivity || apply scroll_not_card |]).
      exact Hst. }
    match goal with
    | |- context [process_cards ?a ?b ?c ?d] =>
      assert (P (process_cards a b c d)) as Hcards
    end.
    { apply process_cards_invariant.
      repeat (apply P_write; [reflexivity || apply scroll_not_card |]).
      exact Hst. }
    destruct (max_count <=? _); [exact Hcards |].
    destruct (next_button _) as [| n class_attr click_ok].
    + apply P_write; [reflexivity | exact Hcards].
    + destruct (0 <? n); [| apply P_write; [reflexivity | exact Hcards]].
      destruct (is_disabled class_attr);
        [apply P_write; [reflexivity | exact Hcards] |].
      destruct click_ok.
      * apply IH, P_turn, P_write; [reflexivity | exact Hcards].
      * repeat (apply P_write; [reflexivity |]). exact Hcards.
Qed.

End LoopInvariant.

Lemma counted_new : counted new_session.
Proof. constructor; vm_compute; first [reflexivity | discriminate]. Qed.

Lemma counted_write (l : log_line) (st : session) :
  is_card_line l = false -> counted st -> counted (write l st).
Proof.
  intros Hl [Hv Hs He Hsum Hb Hc]. unfold visited in *.
  constructor; unfold visited; rewrite ?tally_write;
    cbn [write valid_count filtered_count
    filtered_english_count jobs_buffer count];
    destruct l; try discriminate Hl; cbn; lia.
Qed.

Lemma counted_turn (st : session) : counted st -> counted (turn_page st).
Proof. intros [Hv Hs He Hsum Hb Hc]. constructor; assumption. Qed.

Lemma crawl_pages_counted (fuel : nat) (s : site)
    (max_count min_description_length : Z) (st : session) :
  counted st ->
  counted (snd (crawl_pages fuel s max_count min_description_length st)).
Proof.
  apply crawl_pages_invariant.
  - apply counted_write.
  - intros c st0 _. apply process_card_counted.
  - apply counted_turn.
Qed.

Lemma crawl_pages_bound (fuel : nat) (s : site)
    (max_count min_description_length : Z) (st : session) :
  valid_count st <= max_count ->
  valid_count (snd (crawl_pages fuel s max_count min_description_length st))
  <= max_count.
Proof.
  apply (crawl_pages_invariant s max_count min_description_length
           (fun st => valid_count st <= max_count)).
  - intros l st0 _ H. exact H.
  - intros c st0 Hlt _.
    pose proof (process_card_step max_count min_description_length c st0)
      as (_ & _ & H).
    lia.
  - intros st0 H. exact H.
Qed.

Lemma process_cards_visited (max_count min_description_length : Z)
    (cs : list card) :
  forall st,
    visited st
    <= visited (process_cards max_count min_description_length cs st)
    <= visited st + Py.len cs.
Proof.
  induction cs as [| c cs IH]; intros st; cbn [process_cards];
    unfold Py.len in *; cbn [length]; [lia |].
  destruct (max_count <=? valid_count st); [lia |].
  specialize (IH (process_card max_count min_description_length c st)).
  pose proof (process_card_step max_count min_description_length c st)
    as (Hvis & _).
  lia.
Qed.

(** C6. In every crawl, at the point where the page loop stops or
    the model runs out of fuel: [valid_count] is the length of the buffer
    and the three counters add up to at most the number of cards processed;
    a page adds at most its number of cards to that number, and one card
    adds one to it and moves at most one counter, by one. *)
Theorem counters_agree (fuel : nat) (s : site)
    (max_count min_description_length : Z) :
  let st := snd (crawl_pages fuel s max_count min_description_length
                   new_session) in
  valid_count st = Py.len (jobs_buffer st)
  /\ valid_count st + filtered_count st + filtered_english_count st
     <= visited st
  /\ (forall (cs : list card) (st0 : session),
        visited st0
        <= visited (process_cards max_count min_description_length cs st0)
        <= visited st0 + Py.len cs)
  /\ forall (c : card) (st0 : session),
       let st1 := process_card max_count min_description_length c st0 in
       visited st1 = visited st0 + 1
       /\ ((valid_count st1 = valid_count st0
            /\ filtered_count st1 = filtered_count st0
            /\ filtered_english_count st1 = filtered_english_count st0)
           \/ (valid_count st1 = valid_count st0 + 1
               /\ filtered_count st1 = filtered_count st0
               /\ filtered_english_count st1 = filtered_english_count st0)
           \/ (valid_count st1 = valid_count st0
               /\ filtered_count st1 = filtered_count st0 + 1
               /\ filtered_english_count st1 = filtered_english_count st0)
           \/ (valid_count st1 = valid_count st0
               /\ filtered_count st1 = filtered_count st0
               /\ filtered_english_count st1
                  = filtered_english_count st0 + 1)).
Proof.
  intros st.
  destruct (crawl_pages_counted fuel s max_count min_description_length
              new_session counted_new) as [_ _ _ Hsum Hb _].
  fold st in Hsum, Hb.
  split; [exact Hb |].
  split.
  - exact Hsum.
  - split; [intros cs st0; apply process_cards_visited |].
    intros c st0 st1.
    pose proof (process_card_step max_count min_description_length c st0)
      as (Hvis & _ & H).
    split; assumption.
Qed.

Lemma visited_write (l : log_line) (st : session) :
  is_card_line l = false -> visited (write l st) = visited st.
Proof. intros Hl. unfold visited. rewrite tally_write, Hl. lia. Qed.

Lemma visited_turn (st : session) : visited (turn_page st) = visited st.
Proof. reflexivity. Qed.

(** On a site that never runs out of qualifying cards the loop stops on
    the quota, having processed exactly as many cards as it accepted. *)
Lemma crawl_pages_inexhaustible (s : site)
    (max_count min_description_length : Z) :
  inexhaustible min_description_length s ->
  forall (fuel : nat) (st : session),
    valid_count st <= max_count ->
    (Z.to_nat (max_count - valid_count st) <= fuel)%nat ->
    exists st',
      crawl_pages fuel s max_count min_description_length st
      = (Exit QuotaReached, st')
      /\ valid_count st' = max_count
      /\ visited st' - visited st = max_count - valid_count st.
Proof.
  intros Hinex.
  induction fuel as [| fuel IH]; intros st Hle Hfuel; cbn [crawl_pages];
    destruct (Z.ltb_spec (valid_count st) max_count) as [Hlt | Hge];
    cbn [negb]; try (exists st; repeat split; lia).
  destruct (Hinex (page_num st))
    as (Hdom & Hne & Hall & n & class_attr & Hpager & Hn & Hdis).
  rewrite Hdom. cbn [negb].
  assert (0 < Py.len (cards (pages s (page_num st)))) as Hlen.
  { destruct (cards (pages s (page_num st))); [congruence |].
    unfold Py.len; cbn [length]; lia. }
  destruct (Z.eqb_spec (Py.len (cards (pages s (page_num st)))) 0); [lia |].
  match goal with
  | |- context [process_cards _ _ _ ?x] => remember x as st1 eqn:Hst1
  end.
  assert (valid_count st1 = valid_count st) as Hv1 by (subst st1; reflexivity).
  assert (visited st1 = visited st) as Hvis1.
  { subst st1.
    repeat (rewrite visited_write by (reflexivity || apply scroll_not_card)).
    reflexivity. }
  pose proof (process_cards_valid max_count min_description_length
                (cards (pages s (page_num st))) st1 ltac:(lia)) as Hv2.
  pose proof (process_cards_all_qualify max_count min_description_length
                _ Hall st1) as Hvis2.
  unfold Py.len in Hv2. rewrite (accepted_of_all _ _ Hall) in Hv2.
  fold (Py.len (cards (pages s (page_num st)))) in Hv2.
  remember (process_cards max_count min_description_length
              (cards (pages s (page_num st))) st1) as st2 eqn:Hst2.
  destruct (Z.leb_spec max_count (valid_count st2)) as [Hfull | Hroom].
  - exists st2. repeat split; lia.
  - rewrite Hpager.
    destruct (Z.ltb_spec 0 n); [| lia].
    rewrite Hdis.
    destruct (IH (turn_page (write (LogTurning (page_num st2 + 1)) st2)))
      as (st' & Hrun & Hv' & Hvis').
    + cbn. lia.
    + cbn [turn_page write valid_count]. lia.
    + exists st'. split; [exact Hrun |]. split; [exact Hv' |].
      rewrite visited_turn, visited_write in Hvis' by reflexivity.
      cbn [turn_page write valid_count] in Hvis'. lia.
Qed.

(** C3. [max_count] bounds the accepted records and nothing else: in
    every run [valid_count] stays within it; on a page the buffer grows by
    the records of the qualifying cards, in order, up to the room left, so
    a card that does not qualify takes no room; and with a quota of 3 on a
    site that never runs out of qualifying cards the loop stops on the
    quota with 3 records accepted and 3 cards processed, however many
    cards the pages hold. *)
Theorem quota_counts_accepted_only (max_count min_description_length : Z) :
  (forall fuel s,
     0 <= max_count ->
     valid_count (snd (crawl_pages fuel s max_count min_description_length
                         new_session)) <= max_count)
  /\ (forall cs st,
        valid_count st <= max_count ->
        let st' := process_cards max_count min_description_length cs st in
        jobs_buffer st'
        = jobs_buffer st
          ++ firstn (Z.to_nat (max_count - valid_count st))
                    (accepted_of min_description_length cs)
        /\ valid_count st'
           = Z.min max_count
               (valid_count st
                + Py.len (accepted_of min_description_length cs)))
  /\ (forall c st,
        accepted_data min_description_length c = None ->
        valid_count (process_card max_count min_description_length c st)
        = valid_count st)
  /\ (forall s fuel,
        inexhaustible min_description_length s ->
        (3 <= fuel)%nat ->
        exists st,
          crawl_pages fuel s 3 min_description_length new_session
          = (Exit QuotaReached, st)
          /\ valid_count st = 3
          /\ Py.len (jobs_buffer st) = 3
          /\ visited st = 3).
Proof.
  split; [| split; [| split]].
  - intros fuel s Hpos. apply crawl_pages_bound. exact Hpos.
  - intros cs st Hle st'. subst st'. split.
    + apply process_cards_buffer. exact Hle.
    + apply process_cards_valid. exact Hle.
  - intros c st Hc. apply process_card_rejected. exact Hc.
  - intros s fuel Hinex Hfuel.
    destruct (crawl_pages_inexhaustible s 3 min_description_length Hinex
                fuel new_session) as (st & Hrun & Hv & Hvis);
      [cbn; lia | cbn; lia |].
    exists st. split; [exact Hrun |]. split; [exact Hv |].
    pose proof (crawl_pages_counted fuel s 3 min_description_length
                  new_session counted_new) as [_ _ _ _ Hb _].
    rewrite Hrun in Hb. cbn [snd] in Hb.
    split; [lia |].
    change (visited new_session) with 0 in Hvis.
    change (valid_count new_session) with 0 in Hvis. lia.
Qed.

Lemma quota_counts_accepted_only_witness :
  exists st,
    crawl_pages 3 endless_site 3 4 new_session = (Exit QuotaReached, st)
    /\ valid_count st = 3
    /\ Py.len (jobs_buffer st) = 3
    /\ visited st = 3.
Proof.
  apply (proj2 (proj2 (proj2 (quota_counts_accepted_only 3 4)))).
  - intros p. cbn.
    split; [reflexivity |]. split; [discriminate |].
    split.
    + repeat constructor; vm_compute; eexists; reflexivity.
    + exists 1, (Some (Py.str "next")). repeat split.
  - lia.
Defined.

(** ** The category file *)









Lemma file_events_app (t1 t2 : list event) :
  file_events (t1 ++ t2) = file_events t1 ++ file_events t2.
Proof. apply List.filter_app. Qed.









(** ** The merge *)

Lemma merge_rows_spec (combined_path job_name job_code : pystr) :
  forall (rows : list json_row) (count : Z) (w : world) (old : list json_row),
    jsonl_files w !! combined_path = Some old ->
    let r := merge_rows rows combined_path job_name job_code count w in
    snd r = count + Py.len rows
    /\ jsonl_files (fst r)
       = <[combined_path := old ++ map (tag job_name job_code) rows]>
           (jsonl_files w)
    /\ csv_files (fst r) = csv_files w
    /\ trace (fst r) = trace w.
Proof.
  induction rows as [| row rows IH]; intros count w old Hold; cbn [merge_rows].
  - cbn [fst snd map]. rewrite app_nil_r, insert_id by exact Hold.
    unfold Py.len; cbn [length]. repeat split; lia.
  - specialize (IH (count + 1)
      (write_line combined_path
         (Py.set (Py.set row (Some (Py.str "job_category")) (Str job_name))
                 (Some (Py.str "job_code")) (Str job_code)) w)
      (old ++ [tag job_name job_code row])).
    cbn zeta in IH.
    destruct IH as (Hc & Hj & Hcsv & Ht).
    { cbn [write_line jsonl_files]. rewrite Hold. cbn [default].
      apply lookup_insert_eq. }
    rewrite Hc, Hj, Hcsv, Ht.
    cbn [write_line jsonl_files csv_files trace map].
    rewrite insert_insert_eq, <- app_assoc. cbn [app].
    unfold Py.len; cbn [length]. repeat split; lia.
Qed.






(** ** The run *)

Lemma get_job_details_jsonl (fuel : nat) (browser : pystr -> site)
    (url : pystr) (max_count max_retries min_description_length : Z)
    (output_dir : pystr) (w : world) :
  jsonl_files (fst (get_job_details fuel browser url max_count max_retries
                      min_description_length output_dir w))
  = jsonl_files w.
Proof.
  unfold get_job_details.
  destruct (launch_ok _); cbn [negb]; [| reflexivity].
  destruct (navigate _ _ _ _) as [t [e |]]; [reflexivity |].
  destruct (crawl_pages _ _ _ _ _) as [[why | |] st]; try reflexivity.
  destruct (jobs_buffer st); [reflexivity |].
  unfold append_rows. destruct (forallb encodable _); reflexivity.
Qed.

(** The loop over the categories never writes to the combined file: the
    [await] of line 379 raises on the path that [get_job_details] returns,
    and the handler of line 385 moves on to the next category. *)
Lemma crawl_each_jsonl (fuel : nat) (web : nat -> pystr -> site)
    (output_dir combined_path : pystr) (max_count min_description_length : Z)
    (city job_type : pystr) :
  forall (job_names : list pystr) (i : nat) (w : world),
    jsonl_files (fst (crawl_each fuel web i job_names output_dir combined_path
                        max_count min_description_length city job_type w))
    = jsonl_files w.
Proof.
  induction job_names as [| job_name rest IH]; intros i w; cbn [crawl_each];
    [reflexivity |].
  destruct (Py.get job_dict job_name) as [job_code |]; [| reflexivity].
  match goal with
  | |- context [get_job_details ?a ?b ?c ?d ?e ?f ?g ?h] =>
    pose proof (get_job_details_jsonl a b c d e f g h) as Hd;
    destruct (get_job_details a b c d e f g h) as [w1 r]
  end.
  cbn [fst] in Hd. cbn [await_str].
  destruct r; cbn [fst]; try exact Hd; rewrite IH; exact Hd.
Qed.

Lemma crawl_jobs_never_merges (fuel : nat) (web : nat -> pystr -> site)
    (job_names : list pystr) (output_dir combined_path : pystr)
    (max_count min_description_length : Z) (city job_type : pystr)
    (append : bool) (w : world) :
  jsonl_files
    (fst (drive (crawl_jobs web job_names output_dir combined_path max_count
                   min_description_length city job_type append) fuel w))
  !! combined_path
  = Some (if append then default [] (jsonl_files w !! combined_path) else []).
Proof.
  unfold drive, crawl_jobs. cbn [body].
  rewrite crawl_each_jsonl. cbn [open_combined jsonl_files].
  apply lookup_insert_eq.
Qed.

(** C8, on the code. A combined file of [N = 1] lines, and a run that
    accepts [M = 3] records for the category Java (its category file holds
    the header and 3 rows): driven to its end, the run leaves the combined
    file with 1 line when appending and with none when overwriting; and
    [main], which drops the coroutine, leaves the file as it was under
    either setting. *)
Theorem run_adds_no_line_to_combined_file :
  Py.len <$> csv_files (fst (drive (java_run true) 3 prior_world))
             !! java_csv_path
  = Some 4
  /\ snd (drive (java_run true) 3 prior_world) = Returned tt
  /\ jsonl_files (fst (drive (java_run true) 3 prior_world))
     !! Py.str "all.jsonl" = Some [old_line]
  /\ jsonl_files (fst (drive (java_run false) 3 prior_world))
     !! Py.str "all.jsonl" = Some []
  /\ jsonl_files
       (fst (main (fun _ _ => endless_site)
               (sample_args (Some (Py.str "Java")) true) prior_world))
     !! Py.str "all.jsonl" = Some [old_line]
  /\ jsonl_files
       (fst (main (fun _ _ => endless_site)
               (sample_args (Some (Py.str "Java")) false) prior_world))
     !! Py.str "all.jsonl" = Some [old_line].
Proof.
  split; [vm_compute; reflexivity |].
  split; [vm_compute; reflexivity |].
  unfold java_run.
  split; [rewrite crawl_jobs_never_merges; vm_compute; reflexivity |].
  split; [rewrite crawl_jobs_never_merges; reflexivity |].
  split; vm_compute; reflexivity.
Qed.

(** ** Validation of the category names *)

Lemma parse_job_names_unknown (raw name : pystr) :
  In name (requested_names raw) ->
  Py.mem job_dict name = false ->
  exists unknown,
    parse_job_names (Some raw) = Raised (ValueError unknown)
    /\ In name unknown.
Proof.
  intros Hin Hmem.
  destruct raw as [| c raw]; [contradiction Hin |].
  unfold parse_job_names. cbv beta iota zeta.
  assert (In name (List.filter (fun name => negb (Py.mem job_dict name))
                     (requested_names (c :: raw)))) as Hunknown.
  { apply filter_In. split; [exact Hin |]. rewrite Hmem. reflexivity. }
  destruct (List.filter _ (requested_names (c :: raw))) as [| u us];
    [contradiction Hunknown |].
  exists (u :: us). split; [reflexivity | exact Hunknown].
Qed.

(** C9. When one of the requested names (the comma-separated entries,
    stripped, blank ones dropped) is not a key of [job_dict], [main] raises
    the [ValueError] of line 342, which lists that name; up to that point it
    has created the two output directories and nothing else: no browser
    session, no category file, no write to the combined file. *)
Theorem unknown_name_stops_the_run (web : nat -> pystr -> site)
    (args : Args.t) (w : world) (raw name : pystr) :
  Args.jobs args = Some raw ->
  In name (requested_names raw) ->
  Py.mem job_dict name = false ->
  let r := main web args w in
  (exists unknown, snd r = Raised (ValueError unknown) /\ In name unknown)
  /\ trace (fst r)
     = trace w ++ [Makedirs (Args.output_dir args);
                   MkdirParent (Args.combined_path args)]
  /\ launches (trace (fst r)) = launches (trace w)
  /\ file_events (trace (fst r)) = file_events (trace w)
  /\ crawled (trace (fst r)) = crawled (trace w)
  /\ csv_files (fst r) = csv_files w
  /\ jsonl_files (fst r) = jsonl_files w.
Proof.
  intros Hjobs Hin Hmem r. subst r. unfold main. rewrite Hjobs.
  destruct (parse_job_names_unknown raw name Hin Hmem) as (unknown & -> & Hu).
  cbn [fst snd emit trace csv_files jsonl_files].
  split; [exists unknown; split; [reflexivity | exact Hu] |].
  rewrite <- app_assoc. cbn [app].
  split; [reflexivity |].
  split.
  { unfold launches. rewrite List.filter_app, length_app. cbn. lia. }
  split.
  { rewrite file_events_app. cbn. apply app_nil_r. }
  split.
  { induction (trace w) as [| e t IH]; [reflexivity |].
    destruct e; cbn [crawled app]; rewrite ?IH; reflexivity. }
  split; reflexivity.
Qed.

Lemma unknown_name_stops_the_run_witness :
  snd (main (fun _ _ => endless_site)
         (sample_args (Some (Py.str "Java, Rust,Python")) false) prior_world)
  = Raised (ValueError [Py.str "Rust"])
  /\ trace (fst (main (fun _ _ => endless_site)
                   (sample_args (Some (Py.str "Java, Rust,Python")) false)
                   prior_world))
     = [Makedirs (Py.str "out"); MkdirParent (Py.str "all.jsonl")].
Proof.
  destruct (unknown_name_stops_the_run (fun _ _ => endless_site)
              (sample_args (Some (Py.str "Java, Rust,Python")) false)
              prior_world (Py.str "Java, Rust,Python") (Py.str "Rust"))
    as (_ & Ht & _).
  - reflexivity.
  - vm_compute. right. left. reflexivity.
  - vm_compute. reflexivity.
  - split; [vm_compute; reflexivity | exact Ht].
Defined.

(** ** The unfiltered run *)

Lemma crawled_app (t1 t2 : list event) :
  crawled (t1 ++ t2) = crawled t1 ++ crawled t2.
Proof.
  induction t1 as [| e t1 IH]; [reflexivity |].
  destruct e; cbn [crawled app]; rewrite IH; reflexivity.
Qed.

Lemma navigate_crawled (s : site) (max_retries : Z) :
  forall n attempt, crawled (fst (navigate s max_retries n attempt)) = [].
Proof.
  induction n as [| n IH]; intros attempt; cbn [navigate]; [reflexivity |].
  destruct (nav s attempt); try reflexivity.
  destruct (attempt =? max_retries - 1); [reflexivity |].
  destruct (reload_ok s attempt); [| reflexivity].
  specialize (IH (attempt + 1)).
  destruct (navigate s max_retries n (attempt + 1)) as [t r].
  exact IH.
Qed.

Lemma get_job_details_crawled (fuel : nat) (browser : pystr -> site)
    (url : pystr) (max_count max_retries min_description_length : Z)
    (output_dir : pystr) (w : world) :
  let r := get_job_details fuel browser url max_count max_retries
             min_description_length output_dir w in
  crawled (trace (fst r)) = crawled (trace w)
  /\ (fst (crawl_pages fuel (browser url) max_count min_description_length
             new_session) <> OutOfFuel ->
      snd r <> Running).
Proof.
  unfold get_job_details.
  destruct (launch_ok _); cbn [negb].
  2: { cbn [fst snd write_header emit trace]. rewrite !crawled_app. cbn.
       rewrite !app_nil_r. split; [reflexivity | discriminate]. }
  pose proof (navigate_crawled (browser url) max_retries
                (Z.to_nat max_retries) 0) as Hnav.
  destruct (navigate _ _ _ _) as [t [e |]]; cbn [fst] in Hnav.
  { cbn [fst snd write_header emit trace]. rewrite !crawled_app, Hnav. cbn.
    rewrite !app_nil_r. split; [reflexivity | discriminate]. }
  destruct (crawl_pages _ _ _ _ _) as [[why | |] st]; cbn [fst snd].
  - destruct (jobs_buffer st);
      [| unfold append_rows; destruct (forallb encodable _)];
      cbn [fst snd write_header emit trace];
      rewrite !crawled_app, Hnav; cbn; rewrite !app_nil_r;
      (split; [reflexivity | discriminate]).
  - cbn [fst snd write_header emit trace]. rewrite !crawled_app, Hnav. cbn.
    rewrite !app_nil_r. split; [reflexivity | discriminate].
  - cbn [fst snd write_header emit trace]. rewrite !crawled_app, Hnav. cbn.
    rewrite !app_nil_r. split; [reflexivity | congruence].
Qed.

(** The parser without a filter. *)
Lemma parse_job_names_default (raw_jobs : option pystr) :
  raw_jobs = None \/ raw_jobs = Some [] ->
  parse_job_names raw_jobs = Returned (Py.keys job_dict).
Proof. intros [-> | ->]; reflexivity. Qed.

(** C10, on the code. Without [--jobs], or with an empty one, the parser
    returns the thirteen keys of [job_dict] in the order of their
    declaration.  The run that [main] makes of them crawls none: line 424
    calls [crawl_jobs] and drops the coroutine, so that after the two
    directories nothing happens at all; no category is announced, no
    category file is created, no browser is started, and the combined file
    is not even opened. *)
Theorem unfiltered_run_selects_all_and_crawls_none
    (web : nat -> pystr -> site) (args : Args.t) (w : world) :
  Args.jobs args = None \/ Args.jobs args = Some [] ->
  parse_job_names (Args.jobs args) = Returned (Py.keys job_dict)
  /\ Py.keys job_dict
     = [ Py.str "Java"; Py.str "C/C++"; Py.str "Python"; Py.str "Golang";
         Py.str "Node.js"; Py.str "图像算法"; Py.str "自然语言处理算法";
         Py.str "大模型算法"; Py.str "数据挖掘"; Py.str "规控算法";
         Py.str "SLAM算法"; Py.str "推荐算法"; Py.str "搜索算法" ]
  /\ length (Py.keys job_dict) = 13%nat
  /\ snd (main web args w) = Returned tt
  /\ trace (fst (main web args w))
     = trace w ++ [Makedirs (Args.output_dir args);
                   MkdirParent (Args.combined_path args)]
  /\ crawled (trace (fst (main web args w))) = crawled (trace w)
  /\ headers (trace (fst (main web args w))) = headers (trace w)
  /\ launches (trace (fst (main web args w))) = launches (trace w)
  /\ csv_files (fst (main web args w)) = csv_files w
  /\ jsonl_files (fst (main web args w)) = jsonl_files w.
Proof.
  intros Hjobs.
  pose proof (parse_job_names_default (Args.jobs args) Hjobs) as Hparse.
  split; [exact Hparse |].
  split; [vm_compute; reflexivity |].
  split; [reflexivity |].
  unfold main. rewrite Hparse.
  cbn [fst snd emit trace csv_files jsonl_files].
  rewrite <- app_assoc. cbn [app].
  split; [reflexivity |]. split; [reflexivity |].
  split; [rewrite crawled_app; cbn; apply app_nil_r |].
  split.
  { unfold headers. rewrite List.filter_app, length_app. cbn. lia. }
  split.
  { unfold launches. rewrite List.filter_app, length_app. cbn. lia. }
  split; reflexivity.
Qed.

Lemma unfiltered_run_selects_all_and_crawls_none_witness :
  parse_job_names None = Returned (Py.keys job_dict)
  /\ crawled (trace (fst (main (fun _ _ => endless_site)
                             (sample_args None false) prior_world)))
     = []
  /\ launches (trace (fst (main (fun _ _ => endless_site)
                              (sample_args None false) prior_world)))
     = 0%nat
  /\ jsonl_files (fst (main (fun _ _ => endless_site)
                          (sample_args None false) prior_world))
     = jsonl_files prior_world.
Proof.
  destruct (unfiltered_run_selects_all_and_crawls_none
              (fun _ _ => endless_site) (sample_args None false) prior_world)
    as (Hp & _ & _ & _ & _ & Hc & _ & Hl & _ & Hj).
  - left. reflexivity.
  - split; [exact Hp |]. split; [exact Hc |]. split; [exact Hl | exact Hj].
Defined.

(** * Further properties of the code *)

(** ** Dictionaries and strings *)

Section DictFacts.

Context {K V : Type} `{EqDecision K}.

Lemma get_cons (k k' : K) (v : V) (d : Py.dict K V) :
  Py.get ((k, v) :: d) k' = if bool_decide (k = k') then Some v else Py.get d k'.
Proof. reflexivity. Qed.

Lemma get_in_keys (d : Py.dict K V) (k : K) (v : V) :
  Py.get d k = Some v -> In k (Py.keys d) /\ In v (Py.values d).
Proof.
  induction d as [| [k' v'] d IH]; [discriminate |].
  rewrite get_cons. unfold Py.keys, Py.values in *. cbn [map fst snd].
  case_bool_decide as Hk.
  - intros [= ->]. subst. split; left; reflexivity.
  - intros H'. destruct (IH H'). split; right; assumption.
Qed.

Lemma in_keys_get (d : Py.dict K V) (k : K) :
  In k (Py.keys d) -> exists v, Py.get d k = Some v.
Proof.
  induction d as [| [k' v'] d IH]; [intros [] |].
  unfold Py.keys in *. cbn [map fst]. rewrite get_cons.
  case_bool_decide as Hk; [eauto |].
  intros [Heq | Hin]; [contradiction | exact (IH Hin)].
Qed.

Lemma get_set_eq (d : Py.dict K V) (k : K) (v : V) :
  Py.get (Py.set d k v) k = Some v.
Proof.
  induction d as [| [k' v'] d IH]; cbn [Py.set].
  - rewrite get_cons, bool_decide_eq_true_2; reflexivity.
  - case_bool_decide as Hk; rewrite get_cons.
    + rewrite bool_decide_eq_true_2; [reflexivity | exact Hk].
    + rewrite bool_decide_eq_false_2; [exact IH | exact Hk].
Qed.

Lemma get_set_ne (d : Py.dict K V) (k k' : K) (v : V) :
  k <> k' -> Py.get (Py.set d k v) k' = Py.get d k'.
Proof.
  intros Hne.
  induction d as [| [k0 v0] d IH]; cbn [Py.set].
  - rewrite get_cons, bool_decide_eq_false_2; [reflexivity | exact Hne].
  - case_bool_decide as Hk; rewrite !get_cons.
    + subst k0. rewrite bool_decide_eq_false_2; [reflexivity | exact Hne].
    + rewrite IH. reflexivity.
Qed.

(** In a dictionary whose values are pairwise distinct, a value has one
    key. *)
Lemma get_injective (d : Py.dict K V) (k1 k2 : K) (v : V) :
  List.NoDup (Py.values d) ->
  Py.get d k1 = Some v -> Py.get d k2 = Some v -> k1 = k2.
Proof.
  induction d as [| [k' v'] d IH]; [discriminate |].
  unfold Py.values in *. cbn [map snd]. intros Hnd.
  apply List.NoDup_cons_iff in Hnd as [Hnotin Hnd].
  rewrite !get_cons.
  case_bool_decide as H1; case_bool_decide as H2.
  - intros _ _. congruence.
  - intros [= ->] H'. exfalso. apply Hnotin. eapply get_in_keys, H'.
  - intros H' [= ->]. exfalso. apply Hnotin. eapply get_in_keys, H'.
  - apply IH. exact Hnd.
Qed.

End DictFacts.

Lemma job_dict_codes_distinct : List.NoDup (Py.values job_dict).
Proof.
  apply (List.NoDup_map_inv (fun x => x)). rewrite List.map_id.
  apply NoDup_ListNoDup. apply (bool_decide_unpack _). vm_compute. exact I.
Qed.

(** ** The search URL *)

(** X1. For a fixed city and job type, two categories of [job_dict] with
    the same search URL are the same category. *)
Theorem get_job_url_injective (city jobType job1 job2 : pystr) :
  Py.mem job_dict job1 = true ->
  Py.mem job_dict job2 = true ->
  get_job_url [(Py.str "job", job1)] city jobType
  = get_job_url [(Py.str "job", job2)] city jobType ->
  job1 = job2.
Proof.
  unfold Py.mem, get_job_url.
  rewrite !get_cons, !bool_decide_eq_true_2 by reflexivity.
  change (default [] (Some job1)) with job1.
  change (default [] (Some job2)) with job2.
  destruct (Py.get job_dict job1) as [c1 |] eqn:H1; [| discriminate].
  destruct (Py.get job_dict job2) as [c2 |] eqn:H2; [| discriminate].
  intros _ _ Hurl.
  change (default (Py.str "None") (Some c1)) with c1 in Hurl.
  change (default (Py.str "None") (Some c2)) with c2 in Hurl.
  do 3 apply app_inv_head in Hurl.
  rewrite !app_assoc in Hurl. do 2 apply app_inv_tail in Hurl. subst c2.
  exact (get_injective job_dict job1 job2 c1 job_dict_codes_distinct H1 H2).
Qed.

Lemma get_job_url_injective_witness : Py.str "Python" = Py.str "Python".
Proof.
  apply (get_job_url_injective (Py.str "100010000") (Py.str "1901")
           (Py.str "Python") (Py.str "Python")); reflexivity.
Defined.

(** ** Navigation, for every number of retries *)

Lemma attempts_app (t1 t2 : list event) :
  attempts (t1 ++ t2) = (attempts t1 + attempts t2)%nat.
Proof. unfold attempts. rewrite List.filter_app, length_app. reflexivity. Qed.

Lemma reloads_app (t1 t2 : list event) :
  reloads (t1 ++ t2) = (reloads t1 + reloads t2)%nat.
Proof. unfold reloads. rewrite List.filter_app, length_app. reflexivity. Qed.

Lemma retries_trace_counts (n : nat) :
  forall attempt,
    attempts (retries_trace n attempt) = n
    /\ reloads (retries_trace n attempt) = n.
Proof.
  induction n as [| n IH]; intros attempt; [split; reflexivity |].
  destruct (IH (attempt + 1)) as [Ha Hr].
  cbn [retries_trace]. unfold attempts, reloads in *. cbn. lia.
Qed.

(** Attempts that time out and are followed by a reload that returns are
    skipped over, as long as none of them is the last. *)
Lemma navigate_skip (s : site) (max_retries : Z) :
  forall (j n : nat) (attempt : Z),
    (forall a, attempt <= a < attempt + Z.of_nat j ->
               exists stage, nav s a = NavTimeout stage) ->
    (forall a, attempt <= a < attempt + Z.of_nat j -> reload_ok s a = true) ->
    attempt + Z.of_nat j < max_retries ->
    navigate s max_retries (j + n) attempt
    = (retries_trace j attempt
       ++ fst (navigate s max_retries n (attempt + Z.of_nat j)),
       snd (navigate s max_retries n (attempt + Z.of_nat j))).
Proof.
  induction j as [| j IH]; intros n attempt Hnav Hrel Hlt.
  - cbn [retries_trace app Nat.add]. rewrite Z.add_0_r.
    destruct (navigate s max_retries n attempt); reflexivity.
  - cbn [Nat.add navigate retries_trace].
    destruct (Hnav attempt ltac:(lia)) as [stage ->].
    destruct (Z.eqb_spec attempt (max_retries - 1)); [lia |].
    rewrite Hrel by lia.
    rewrite IH.
    + replace (attempt + 1 + Z.of_nat j) with (attempt + Z.of_nat (S j)) by lia.
      reflexivity.
    + intros a Ha. apply Hnav. lia.
    + intros a Ha. apply Hrel. lia.
    + lia.
Qed.

Lemma navigate_bounds (s : site) (max_retries : Z) :
  forall (n : nat) (attempt : Z),
    attempt + Z.of_nat n = max_retries ->
    let r := navigate s max_retries n attempt in
    (attempts (fst r) <= n)%nat
    /\ ((0 < n)%nat -> (0 < attempts (fst r))%nat)
    /\ (reloads (fst r) <= attempts (fst r))%nat
    /\ (forall m, snd r = Some (LoadFailed m) ->
                  m = max_retries /\ attempts (fst r) = n
                  /\ reloads (fst r) = (n - 1)%nat)
    /\ (snd r = None -> reloads (fst r) = (attempts (fst r) - 1)%nat)
    /\ (snd r = Some PlaywrightTimeoutError ->
        reloads (fst r) = attempts (fst r)).
Proof.
  induction n as [| n IH]; intros attempt Hsum; cbn [navigate].
  { cbn. repeat split; try lia; discriminate. }
  destruct (nav s attempt).
  - cbn. repeat split; try lia; discriminate.
  - destruct (Z.eqb_spec attempt (max_retries - 1)) as [Hlast | Hmore].
    + assert (n = 0%nat) by lia. subst n. cbn.
      repeat split; try lia; try discriminate; congruence.
    + destruct (reload_ok s attempt).
      * specialize (IH (attempt + 1) ltac:(lia)). cbn zeta in IH.
        destruct (navigate s max_retries n (attempt + 1)) as [t r].
        cbn [fst snd] in *.
        destruct IH as (Ha & Hpos & Hr & Hf & Hn & Ht).
        specialize (Hpos ltac:(lia)).
        unfold attempts, reloads in *. cbn [List.filter length].
        split; [lia |]. split; [lia |]. split; [lia |]. split.
        { intros m Hm. destruct (Hf m Hm) as (-> & Ha' & Hr').
          split; [reflexivity |]. lia. }
        split.
        { intros Hnone. specialize (Hn Hnone). lia. }
        { intros Htime. specialize (Ht Htime). lia. }
      * cbn. repeat split; try lia; discriminate.
  - cbn. repeat split; try lia; discriminate.
Qed.

(** X2. Whatever the site does, navigation makes at most [max_retries]
    attempts and never reloads more often than it navigates; the exception
    of line 146 is raised only after exactly [max_retries] attempts, with a
    reload between two of them; and when navigation succeeds, every
    attempt but the last was followed by a reload. *)
Theorem navigate_never_exceeds_max_retries (s : site) (max_retries : Z) :
  let r := navigate s max_retries (Z.to_nat max_retries) 0 in
  (attempts (fst r) <= Z.to_nat max_retries)%nat
  /\ (reloads (fst r) <= attempts (fst r))%nat
  /\ (forall m, snd r = Some (LoadFailed m) ->
                m = max_retries
                /\ attempts (fst r) = Z.to_nat max_retries
                /\ reloads (fst r) = (Z.to_nat max_retries - 1)%nat)
  /\ (snd r = None -> reloads (fst r) = (attempts (fst r) - 1)%nat).
Proof.
  destruct (Z.le_gt_cases 0 max_retries) as [Hpos | Hneg].
  - destruct (navigate_bounds s max_retries (Z.to_nat max_retries) 0
                ltac:(lia)) as (Ha & _ & Hr & Hf & Hn & _).
    cbn zeta. split; [exact Ha |]. split; [exact Hr |].
    split; [exact Hf | exact Hn].
  - replace (Z.to_nat max_retries) with 0%nat by lia. cbn.
    split; [lia |]. split; [lia |]. split; [discriminate | reflexivity].
Qed.

(** X3. Navigation succeeds at the first attempt that finds the page
    ready: after [k] attempts that timed out and were reloaded, with
    [k < max_retries], a ready attempt ends the loop with [k + 1] attempts
    and [k] reloads, and no exception. *)
Theorem navigate_succeeds_at_first_ready_attempt
    (s : site) (max_retries k : Z) :
  0 <= k < max_retries ->
  (forall a, 0 <= a < k -> exists stage, nav s a = NavTimeout stage) ->
  (forall a, 0 <= a < k -> reload_ok s a = true) ->
  nav s k = NavReady ->
  navigate s max_retries (Z.to_nat max_retries) 0
  = (retries_trace (Z.to_nat k) 0 ++ [Goto k], None).
Proof.
  intros Hk Hnav Hrel Hready.
  replace (Z.to_nat max_retries)
    with (Z.to_nat k + S (Z.to_nat (max_retries - k - 1)))%nat by lia.
  rewrite navigate_skip.
  - replace (0 + Z.of_nat (Z.to_nat k)) with k by lia.
    cbn [navigate]. rewrite Hready. reflexivity.
  - intros a Ha. apply Hnav. lia.
  - intros a Ha. apply Hrel. lia.
  - lia.
Qed.

Lemma navigate_succeeds_at_first_ready_attempt_witness :
  navigate second_try_site 3 (Z.to_nat 3) 0
  = ([Goto 0; Reload 0; Goto 1], None).
Proof.
  apply (navigate_succeeds_at_first_ready_attempt second_try_site 3 1).
  - lia.
  - intros a Ha. exists Marker. assert (a = 0) as -> by lia. reflexivity.
  - intros a Ha. reflexivity.
  - reflexivity.
Defined.

(** X4. Only a timeout of the navigation itself is retried.  After [k]
    attempts that timed out and were reloaded, an attempt that raises
    another exception ends navigation with that exception; and an attempt
    that times out, is not the last, and whose reload times out too ends
    navigation with the timeout of the reload, however many retries are
    left. *)
Theorem navigate_retries_timeouts_only
    (s : site) (max_retries k : Z) :
  0 <= k < max_retries ->
  (forall a, 0 <= a < k -> exists stage, nav s a = NavTimeout stage) ->
  (forall a, 0 <= a < k -> reload_ok s a = true) ->
  (nav s k = NavError ->
   navigate s max_retries (Z.to_nat max_retries) 0
   = (retries_trace (Z.to_nat k) 0 ++ [Goto k], Some PlaywrightError))
  /\ ((exists stage, nav s k = NavTimeout stage) ->
      k < max_retries - 1 ->
      reload_ok s k = false ->
      navigate s max_retries (Z.to_nat max_retries) 0
      = (retries_trace (Z.to_nat k) 0 ++ [Goto k; Reload k],
         Some PlaywrightTimeoutError)).
Proof.
  intros Hk Hnav Hrel.
  assert (navigate s max_retries (Z.to_nat max_retries) 0
          = (retries_trace (Z.to_nat k) 0
             ++ fst (navigate s max_retries
                       (S (Z.to_nat (max_retries - k - 1))) k),
             snd (navigate s max_retries
                    (S (Z.to_nat (max_retries - k - 1))) k))) as Hskip.
  { replace (Z.to_nat max_retries)
      with (Z.to_nat k + S (Z.to_nat (max_retries - k - 1)))%nat by lia.
    rewrite navigate_skip.
    - replace (0 + Z.of_nat (Z.to_nat k)) with k by lia. reflexivity.
    - intros a Ha. apply Hnav. lia.
    - intros a Ha. apply Hrel. lia.
    - lia. }
  rewrite Hskip. cbn [navigate]. split.
  - intros ->. reflexivity.
  - intros [stage ->] Hmore Hreload.
    destruct (Z.eqb_spec k (max_retries - 1)); [lia |].
    rewrite Hreload. reflexivity.
Qed.

Lemma navigate_retries_timeouts_only_witness :
  navigate stuck_reload_site 3 (Z.to_nat 3) 0
  = ([Goto 0; Reload 0], Some PlaywrightTimeoutError).
Proof.
  apply (proj2 (navigate_retries_timeouts_only stuck_reload_site 3 0
                  ltac:(lia) ltac:(intros a Ha; lia) ltac:(intros a Ha; lia))).
  - exists Target. reflexivity.
  - lia.
  - reflexivity.
Defined.

(** X5. For every [max_retries >= 1]: when every attempt times out and
    every reload returns, navigation makes [max_retries] attempts, reloads
    after each but the last, and raises the exception of line 146. *)
Theorem navigate_exhausts_max_retries (s : site) (max_retries : Z) :
  1 <= max_retries ->
  (forall a, 0 <= a < max_retries -> exists stage, nav s a = NavTimeout stage) ->
  (forall a, 0 <= a < max_retries - 1 -> reload_ok s a = true) ->
  navigate s max_retries (Z.to_nat max_retries) 0
  = (retries_trace (Z.to_nat (max_retries - 1)) 0 ++ [Goto (max_retries - 1)],
     Some (LoadFailed max_retries)).
Proof.
  intros Hmax Hnav Hrel.
  replace (Z.to_nat max_retries)
    with (Z.to_nat (max_retries - 1) + 1)%nat by lia.
  rewrite navigate_skip.
  - replace (0 + Z.of_nat (Z.to_nat (max_retries - 1)))
      with (max_retries - 1) by lia.
    cbn [navigate].
    destruct (Hnav (max_retries - 1) ltac:(lia)) as [stage ->].
    rewrite Z.eqb_refl. reflexivity.
  - intros a Ha. apply Hnav. lia.
  - intros a Ha. apply Hrel. lia.
  - lia.
Qed.

Lemma navigate_exhausts_max_retries_witness :
  navigate always_timeout 5 (Z.to_nat 5) 0
  = ([Goto 0; Reload 0; Goto 1; Reload 1; Goto 2; Reload 2; Goto 3; Reload 3;
      Goto 4], Some (LoadFailed 5)).
Proof.
  apply (navigate_exhausts_max_retries always_timeout 5).
  - lia.
  - intros a Ha. exists Marker. reflexivity.
  - intros a Ha. reflexivity.
Defined.

(** X6. With [max_retries <= 0] the navigation loop has no iteration:
    [get_job_details] never loads the search page, raises no
    navigation failure, and goes on to the page loop on whatever the new
    page shows; its result is that of the page loop and of the write that
    follows it. *)
Theorem no_retries_means_no_navigation
    (fuel : nat) (browser : pystr -> site) (url : pystr)
    (max_count max_retries min_description_length : Z)
    (output_dir : pystr) (w : world) :
  max_retries <= 0 ->
  launch_ok (browser url) = true ->
  let r := get_job_details fuel browser url max_count max_retries
             min_description_length output_dir w in
  let loop := crawl_pages fuel (browser url) max_count min_description_length
                new_session in
  navigate (browser url) max_retries (Z.to_nat max_retries) 0 = ([], None)
  /\ attempts (trace (fst r)) = attempts (trace w)
  /\ snd r = match fst loop with
             | Exit _ =>
               if forallb encodable (writerows (jobs_buffer (snd loop)))
               then Returned (output_path_of output_dir (browser url))
               else Raised UnicodeEncodeError
             | Crashed => Raised PlaywrightError
             | OutOfFuel => Running
             end.
Proof.
  intros Hmax Hlaunch r loop.
  assert (navigate (browser url) max_retries (Z.to_nat max_retries) 0
          = ([], None)) as Hnav
    by (replace (Z.to_nat max_retries) with 0%nat by lia; reflexivity).
  split; [exact Hnav |].
  subst r. unfold get_job_details. rewrite Hlaunch, Hnav. cbn [negb].
  fold loop. destruct loop as [[why | |] st]; cbn [fst snd].
  - destruct (jobs_buffer st) as [| job rest].
    + split; [| reflexivity].
      cbn [fst emit write_header trace]. rewrite !attempts_app. cbn. lia.
    + unfold append_rows.
      destruct (forallb encodable (writerows (job :: rest)));
        (split; [| reflexivity]);
        cbn [fst emit write_header trace]; rewrite !attempts_app; cbn; lia.
  - split; [| reflexivity].
    cbn [emit write_header trace]. rewrite !attempts_app. cbn. lia.
  - split; [| reflexivity].
    cbn [emit write_header trace]. rewrite !attempts_app. cbn. lia.
Qed.

Lemma no_retries_means_no_navigation_witness :
  snd (get_job_details 3 (fun _ => always_timeout) java_url 3 0 4
         (Py.str "out") empty_world)
  = Returned (output_path_of (Py.str "out") always_timeout).
Proof.
  destruct (no_retries_means_no_navigation 3 (fun _ => always_timeout)
              java_url 3 0 4 (Py.str "out") empty_world) as (_ & _ & H).
  - lia.
  - reflexivity.
  - exact H.
Defined.

(** ** The scroll loop *)

Lemma scroll_spec (v : page_view) :
  forall (n k : nat),
    match scroll v n k (heights v k) with
    | LogHeightStable m =>
      exists j : nat,
        m = Z.of_nat j /\ (k < j <= k + n)%nat
        /\ heights v j = heights v (j - 1)%nat
        /\ forall i, (k < i < j)%nat -> heights v i <> heights v (i - 1)%nat
    | LogScrolledFive =>
      forall i, (k < i <= k + n)%nat -> heights v i <> heights v (i - 1)%nat
    | _ => False
    end.
Proof.
  induction n as [| n IH]; intros k; cbn [scroll]; [intros i Hi; lia |].
  destruct (Z.eqb_spec (heights v (S k)) (heights v k)) as [Heq | Hne].
  - exists (S k). split; [reflexivity |]. split; [lia |].
    split; [| intros i Hi; lia].
    replace (S k - 1)%nat with k by lia. exact Heq.
  - specialize (IH (S k)).
    destruct (scroll v n (S k) (heights v (S k))); try contradiction.
    + destruct IH as (j & Hm & Hj & Hsame & Hdiff).
      exists j. split; [exact Hm |]. split; [lia |]. split; [exact Hsame |].
      intros i Hi. destruct (Nat.eq_dec i (S k)) as [-> | Hother].
      * replace (S k - 1)%nat with k by lia. exact Hne.
      * apply Hdiff. lia.
    + intros i Hi. destruct (Nat.eq_dec i (S k)) as [-> | Hother].
      * replace (S k - 1)%nat with k by lia. exact Hne.
      * apply IH. lia.
Qed.

(** X7. The scroll loop scrolls at most five times and stops at the
    first scroll that leaves the page height unchanged: it reports [j]
    scrolls exactly when the [j]-th reading, [1 <= j <= 5], is the first to
    equal the one before, and reports five completed scrolls exactly when
    each of the five readings differs from the one before. *)
Theorem scroll_stops_when_height_settles (v : page_view) :
  match scroll v 5 0 (heights v 0%nat) with
  | LogHeightStable m =>
    exists j : nat,
      m = Z.of_nat j /\ (1 <= j <= 5)%nat
      /\ heights v j = heights v (j - 1)%nat
      /\ forall i, (1 <= i < j)%nat -> heights v i <> heights v (i - 1)%nat
  | LogScrolledFive =>
    forall i, (1 <= i <= 5)%nat -> heights v i <> heights v (i - 1)%nat
  | _ => False
  end.
Proof.
  pose proof (scroll_spec v 5 0) as H.
  destruct (scroll v 5 0 (heights v 0%nat)); exact H.
Qed.

(** ** The response listener *)

Lemma handle_response_payload (r : response) (captured : list json_data) :
  handle_response r captured
  = captured ++ match detail_payload r with Some data => [data] | None => [] end.
Proof.
  unfold handle_response, _parse_response, detail_payload.
  destruct (Py.contains _ _); [destruct (json r) |];
    rewrite ?app_nil_r; reflexivity.
Qed.

Lemma capture_from (arrivals : list response) :
  forall captured,
    fold_left (fun captured_responses r => handle_response r captured_responses)
              arrivals captured
    = captured ++ detail_payloads arrivals.
Proof.
  induction arrivals as [| r rest IH]; intros captured;
    cbn [fold_left detail_payloads]; [rewrite app_nil_r; reflexivity |].
  rewrite IH, handle_response_payload.
  destruct (detail_payload r); rewrite <- app_assoc; reflexivity.
Qed.

Lemma capture_payloads (arrivals : list response) :
  capture arrivals = detail_payloads arrivals.
Proof. unfold capture. rewrite capture_from. reflexivity. Qed.

Lemma detail_payloads_noise (noise rest : list response) :
  Forall (fun r => detail_payload r = None) noise ->
  detail_payloads (noise ++ rest) = detail_payloads rest.
Proof.
  induction 1 as [| r noise Hr _ IH]; [reflexivity |].
  cbn [app detail_payloads]. rewrite Hr. exact IH.
Qed.

(** X8. The buffer a card is read from holds, in the order of arrival,
    the bodies of the responses whose URL contains [job/detail.json] and
    whose body parses, and nothing else.  So a click that brings no such
    response is logged as skipped and leaves the session as it was, and a
    card is processed from the first such response alone: responses of
    other endpoints, unparsable ones and everything that arrives later make
    no difference. *)
Theorem card_is_read_from_first_detail_response
    (max_count min_description_length : Z) (st : session) :
  (forall arrivals, capture arrivals = detail_payloads arrivals)
  /\ (forall arrivals,
        Forall (fun r => detail_payload r = None) arrivals ->
        process_card max_count min_description_length (Clicked arrivals) st
        = write LogNoResponse st)
  /\ (forall noise r later data,
        Forall (fun r => detail_payload r = None) noise ->
        detail_payload r = Some data ->
        process_card max_count min_description_length
          (Clicked (noise ++ r :: later)) st
        = process_card max_count min_description_length (Clicked [r]) st).
Proof.
  split; [exact capture_payloads |]. split.
  - intros arrivals Hnone. unfold process_card.
    rewrite capture_payloads.
    rewrite <- (app_nil_r arrivals), detail_payloads_noise by exact Hnone.
    reflexivity.
  - intros noise r later data Hnoise Hr. unfold process_card.
    rewrite !capture_payloads, detail_payloads_noise by exact Hnoise.
    cbn [detail_payloads]. rewrite Hr. reflexivity.
Qed.

Lemma card_is_read_from_first_detail_response_witness :
  process_card 3 4
    (Clicked [other_response; detail_response good_detail;
              detail_response bare_detail]) new_session
  = process_card 3 4 (Clicked [detail_response good_detail]) new_session.
Proof.
  apply (proj2 (proj2 (card_is_read_from_first_detail_response
                         3 4 new_session))
           [other_response] (detail_response good_detail)
           [detail_response bare_detail] (Detail good_detail)).
  - repeat constructor.
  - reflexivity.
Defined.

(** ** What reaches the buffer *)

Lemma lstrip_suffix (s : pystr) :
  exists ws, s = ws ++ Py.lstrip s /\ Forall (fun c => Py.isspace c = true) ws.
Proof.
  induction s as [| c s (ws & Hs & Hws)]; [exists []; split; [reflexivity | constructor] |].
  cbn [Py.lstrip]. destruct (Py.isspace c) eqn:Hc.
  - exists (c :: ws). split; [cbn; congruence | constructor; assumption].
  - exists []. split; [reflexivity | constructor].
Qed.

Lemma lstrip_head (s : pystr) :
  match Py.lstrip s with
  | [] => True
  | c :: _ => Py.isspace c = false
  end.
Proof.
  induction s as [| c s IH]; [exact I |].
  cbn [Py.lstrip]. destruct (Py.isspace c) eqn:Hc; [exact IH | exact Hc].
Qed.

Lemma lstrip_fixed (s : pystr) :
  match s with [] => True | c :: _ => Py.isspace c = false end ->
  Py.lstrip s = s.
Proof. destruct s as [| c s]; [reflexivity |]. cbn [Py.lstrip]. intros ->. reflexivity. Qed.

Lemma lstrip_idempotent (s : pystr) : Py.lstrip (Py.lstrip s) = Py.lstrip s.
Proof. apply lstrip_fixed, lstrip_head. Qed.

Lemma lstrip_blank (s : pystr) :
  Forall (fun c => Py.isspace c = true) s -> Py.lstrip s = [].
Proof.
  induction 1 as [| c s Hc _ IH]; [reflexivity |].
  cbn [Py.lstrip]. rewrite Hc. exact IH.
Qed.

(** [strip] leaves a stripped string as it is. *)
Lemma strip_idempotent (s : pystr) : Py.strip (Py.strip s) = Py.strip s.
Proof.
  unfold Py.strip.
  set (t := Py.lstrip s).
  assert (Py.lstrip (Py.rstrip t) = Py.rstrip t) as Hl.
  { apply lstrip_fixed. unfold Py.rstrip.
    destruct (lstrip_suffix (rev t)) as (ws & Hrev & _).
    pose proof (lstrip_head s) as Hhead. fold t in Hhead.
    destruct (Py.lstrip (rev t)) as [| c x] eqn:Hx using rev_ind; [exact I |].
    clear IHx.
    apply (f_equal (@rev N)) in Hrev.
    rewrite rev_involutive, rev_app_distr in Hrev.
    rewrite rev_app_distr in *. cbn [rev app] in *.
    rewrite Hrev in Hhead. exact Hhead. }
  rewrite Hl. unfold Py.rstrip at 1.
  unfold Py.rstrip. rewrite rev_involutive, lstrip_idempotent. reflexivity.
Qed.

Lemma build_job_data_fields (d : detail) (job_description : pystr)
    (job : job_data) :
  build_job_data d job_description = Some job ->
  description_field job = job_description
  /\ skills_field job
     = Py.join (Py.str ",")
         match showSkills d with SkillsList l => l | _ => [] end.
Proof.
  unfold build_job_data.
  destruct (showSkills d); intros H; inversion H; split; reflexivity.
Qed.

Lemma crawl_pages_built (fuel : nat) (s : site)
    (max_count min_description_length : Z) :
  Forall (built_from min_description_length)
    (jobs_buffer (snd (crawl_pages fuel s max_count min_description_length
                         new_session))).
Proof.
  apply (crawl_pages_invariant s max_count min_description_length
           (fun st => Forall (built_from min_description_length)
                        (jobs_buffer st))).
  - intros l st _ H. exact H.
  - intros c st _ H. unfold process_card.
    destruct c as [| arrivals]; try exact H.
    destruct (capture arrivals) as [| [| d | d] rest]; try exact H;
      [| destruct (filter_decision _ _); exact H].
    destruct (filter_decision _ _) eqn:Hfilter; try exact H.
    destruct (build_job_data _ _) as [job |] eqn:Hjob; [| exact H].
    cbn [write jobs_buffer]. apply Forall_app. split; [exact H |].
    constructor; [| constructor].
    exists d. split; assumption.
  - intros st H. exact H.
  - constructor.
Qed.

(** X9. Every record in the buffer, in every crawl, carries a description
    that went through both filters: it is at least
    [min_description_length] characters long, its share of ASCII letters
    does not exceed the literal 0.3, and it has no white space left at
    either end. *)
Theorem buffered_descriptions_passed_the_filters (fuel : nat) (s : site)
    (max_count min_description_length : Z) :
  Forall (fun job : job_data =>
            min_description_length <= Py.len (description_field job)
            /\ PrimFloat.ltb english_limit
                 (english_ratio (description_field job)) = false
            /\ Py.strip (description_field job) = description_field job)
    (jobs_buffer (snd (crawl_pages fuel s max_count min_description_length
                         new_session))).
Proof.
  eapply Forall_impl; [apply crawl_pages_built |].
  intros job (d & Hjob & Hfilter). cbn beta.
  destruct (build_job_data_fields d _ job Hjob) as [-> _].
  unfold filter_decision in Hfilter.
  destruct (Z.ltb_spec (Py.len (description_of d)) min_description_length);
    [discriminate |].
  destruct (PrimFloat.ltb english_limit (english_ratio (description_of d)));
    [discriminate |].
  split; [assumption |]. split; [reflexivity |].
  unfold description_of. apply strip_idempotent.
Qed.

Lemma blank_description (d : detail) :
  (postDescription d = None
   \/ exists s, postDescription d = Some s
                /\ Forall (fun c => Py.isspace c = true) s) ->
  description_of d = [].
Proof.
  unfold description_of.
  intros [-> | (s & -> & Hs)]; [reflexivity |].
  change (default [] (Some s)) with s.
  unfold Py.strip. rewrite (lstrip_blank s Hs). reflexivity.
Qed.

(** X10. A payload without description, or with a description of white
    space only, is read as the empty description.  With a positive minimum
    its card is counted as filtered for length and adds nothing to the
    buffer; with a minimum of zero or less the empty description passes
    both filters and the card is accepted. *)
Theorem blank_description_is_short_or_accepted
    (max_count min_description_length : Z) (d : detail) (st : session) :
  (postDescription d = None
   \/ exists s, postDescription d = Some s
                /\ Forall (fun c => Py.isspace c = true) s) ->
  let st' := process_card max_count min_description_length
               (Clicked [detail_response d]) st in
  description_of d = []
  /\ (0 < min_description_length ->
      filtered_count st' = filtered_count st + 1
      /\ valid_count st' = valid_count st
      /\ jobs_buffer st' = jobs_buffer st)
  /\ (min_description_length <= 0 ->
      showSkills d <> SkillsBad ->
      valid_count st' = valid_count st + 1
      /\ exists job, jobs_buffer st' = jobs_buffer st ++ [job]
                     /\ description_field job = []).
Proof.
  intros Hblank st'. pose proof (blank_description d Hblank) as Hd.
  split; [exact Hd |].
  subst st'. unfold process_card.
  change (capture [detail_response d]) with [Detail d].
  cbv beta iota zeta. rewrite Hd. unfold filter_decision. change (Py.len []) with 0.
  split.
  - intros Hpos. destruct (Z.ltb_spec 0 min_description_length); [| lia].
    split; [reflexivity |]. split; reflexivity.
  - intros Hmin Hskills.
    destruct (Z.ltb_spec 0 min_description_length); [lia |].
    change (PrimFloat.ltb english_limit (english_ratio [])) with false.
    destruct (build_job_data d []) as [job |] eqn:Hjob.
    + split; [reflexivity |]. exists job. split; [reflexivity |].
      apply (build_job_data_fields d [] job Hjob).
    + unfold build_job_data in Hjob. destruct (showSkills d); congruence.
Qed.

Lemma blank_description_is_short_or_accepted_witness :
  filtered_count (process_card 3 4 (Clicked [detail_response bare_detail])
                    new_session) = 1
  /\ valid_count (process_card 3 0 (Clicked [detail_response bare_detail])
                    new_session) = 1.
Proof.
  split.
  - apply (proj1 (proj2 (blank_description_is_short_or_accepted
                           3 4 bare_detail new_session
                           (or_introl eq_refl)))).
    lia.
  - apply (proj2 (proj2 (blank_description_is_short_or_accepted
                           3 0 bare_detail new_session
                           (or_introl eq_refl)))).
    + lia.
    + discriminate.
Defined.

(** X11. The page loop only adds: from any session, the buffer and the
    log it ends with extend the ones it started with, and no counter and
    no page number goes down. *)
Theorem crawl_only_appends (fuel : nat) (s : site)
    (max_count min_description_length : Z) (st : session) :
  let st' := snd (crawl_pages fuel s max_count min_description_length st) in
  (exists added, jobs_buffer st' = jobs_buffer st ++ added)
  /\ (exists lines, progress st' = progress st ++ lines)
  /\ valid_count st <= valid_count st'
  /\ filtered_count st <= filtered_count st'
  /\ filtered_english_count st <= filtered_english_count st'
  /\ page_num st <= page_num st'.
Proof.
  apply (crawl_pages_invariant s max_count min_description_length
           (fun st' =>
              (exists added, jobs_buffer st' = jobs_buffer st ++ added)
              /\ (exists lines, progress st' = progress st ++ lines)
              /\ valid_count st <= valid_count st'
              /\ filtered_count st <= filtered_count st'
              /\ filtered_english_count st <= filtered_english_count st'
              /\ page_num st <= page_num st')).
  - intros l st0 _ (Hb & (lines & Hl) & Hrest).
    split; [exact Hb |]. split; [| exact Hrest].
    exists (lines ++ [l]). cbn [write progress]. rewrite Hl, app_assoc.
    reflexivity.
  - intros c st0 _ ((added & Hb) & (lines & Hl) & Hv & Hf & He & Hp).
    unfold process_card.
    destruct c as [| arrivals];
      [| destruct (capture arrivals) as [| [| d | d] rest];
         [| | destruct (filter_decision _ _);
              [destruct (build_job_data _ _) as [job |] | |]
            | destruct (filter_decision _ _)]];
      cbn [write jobs_buffer progress valid_count filtered_count
           filtered_english_count page_num];
      rewrite ?Hb, ?Hl, <- ?app_assoc;
      (split; [eauto |]); (split; [eauto |]); repeat split; lia.
  - intros st0 (Hb & Hl & Hv & Hf & He & Hp).
    cbn [turn_page jobs_buffer progress valid_count filtered_count
         filtered_english_count page_num].
    repeat split; try assumption; lia.
  - split; [exists []; rewrite app_nil_r; reflexivity |].
    split; [exists []; rewrite app_nil_r; reflexivity |].
    repeat split; lia.
Qed.

(** ** When the page loop ends *)

Lemma crawl_pages_stops (s : site) (max_count min_description_length p : Z) :
  stops_at (pages s p) = true ->
  forall (fuel : nat) (st : session),
    page_num st <= p ->
    (Z.to_nat (p - page_num st) < fuel)%nat ->
    fst (crawl_pages fuel s max_count min_description_length st) <> OutOfFuel
    /\ page_num (snd (crawl_pages fuel s max_count min_description_length st))
       <= p.
Proof.
  intros Hstop.
  induction fuel as [| fuel IH]; intros st Hle Hfuel; [lia |].
  cbn [crawl_pages].
  destruct (valid_count st <? max_count); cbn [negb fst snd];
    [| split; [discriminate | exact Hle]].
  destruct (dom_ok (pages s (page_num st))) eqn:Hdom; cbn [negb fst snd];
    [| split; [discriminate | exact Hle]].
  destruct (Py.len (cards (pages s (page_num st))) =? 0) eqn:Hcards;
    cbn [fst snd]; [split; [discriminate | exact Hle] |].
  match goal with
  | |- context [process_cards ?a ?b ?c ?d] =>
    pose proof (process_cards_page a b c d) as Hpage;
    remember (process_cards a b c d) as st2 eqn:Hst2
  end.
  cbn [write page_num] in Hpage.
  destruct (max_count <=? valid_count st2); cbn [fst snd];
    [split; [discriminate | lia] |].
  destruct (next_button (pages s (page_num st)))
    as [| n class_attr click_ok] eqn:Hpager; cbn [fst snd write page_num];
    [split; [discriminate | lia] |].
  destruct (0 <? n) eqn:Hn; cbn [fst snd write page_num];
    [| split; [discriminate | lia]].
  destruct (is_disabled class_attr) eqn:Hdis; cbn [fst snd write page_num];
    [split; [discriminate | lia] |].
  destruct click_ok; cbn [fst snd write page_num];
    [| split; [discriminate | lia]].
  assert (page_num st < p) as Hlt.
  { destruct (Z.eq_dec (page_num st) p) as [Heq | Hne]; [| lia].
    rewrite <- Heq in Hstop. unfold stops_at in Hstop.
    rewrite Hdom, Hcards, Hpager, Hn, Hdis in Hstop. discriminate. }
  apply IH; cbn [turn_page write page_num]; lia.
Qed.

(** X12. The page loop ends where the result pages end.  When page [p]
    raises, shows no card or has a pager that cannot be followed, the loop
    started on page 1 stops within [p] pages, on page [p] at the latest,
    whatever the earlier pages hold; and [get_job_details] then returns or
    raises. *)
Theorem crawl_ends_at_last_page
    (fuel : nat) (browser : pystr -> site) (url : pystr)
    (max_count max_retries min_description_length p : Z)
    (output_dir : pystr) (w : world) :
  1 <= p ->
  stops_at (pages (browser url) p) = true ->
  (Z.to_nat p <= fuel)%nat ->
  let loop := crawl_pages fuel (browser url) max_count min_description_length
                new_session in
  fst loop <> OutOfFuel
  /\ page_num (snd loop) <= p
  /\ snd (get_job_details fuel browser url max_count max_retries
            min_description_length output_dir w) <> Running.
Proof.
  intros Hp Hstop Hfuel loop.
  destruct (crawl_pages_stops (browser url) max_count min_description_length p
              Hstop fuel new_session) as [Hrun Hpage];
    [cbn; lia | cbn; lia |].
  split; [exact Hrun |]. split; [exact Hpage |].
  apply (get_job_details_crawled fuel browser url max_count max_retries
           min_description_length output_dir w).
  exact Hrun.
Qed.

Lemma crawl_ends_at_last_page_witness :
  fst (crawl_pages 2 two_page_site 50 4 new_session) <> OutOfFuel
  /\ page_num (snd (crawl_pages 2 two_page_site 50 4 new_session)) <= 2.
Proof.
  destruct (crawl_ends_at_last_page 2 (fun _ => two_page_site) [] 50 3 4 2
              [] empty_world) as (Hrun & Hpage & _).
  - lia.
  - vm_compute. reflexivity.
  - lia.
  - split; [exact Hrun | exact Hpage].
Defined.

(** X13. With [max_count <= 0] the page loop has no iteration: no page is
    scrolled and no card is clicked; when the browser starts and the page
    loads, [get_job_details] returns the path of a file that holds the
    header alone. *)
Theorem zero_quota_visits_no_page
    (fuel : nat) (browser : pystr -> site) (url : pystr)
    (max_count max_retries min_description_length : Z)
    (output_dir : pystr) (w : world) :
  max_count <= 0 ->
  let s := browser url in
  let r := get_job_details fuel browser url max_count max_retries
             min_description_length output_dir w in
  crawl_pages fuel s max_count min_description_length new_session
  = (Exit QuotaReached, new_session)
  /\ (launch_ok s = true ->
      snd (navigate s max_retries (Z.to_nat max_retries) 0) = None ->
      snd r = Returned (output_path_of output_dir s)
      /\ csv_files (fst r) !! output_path_of output_dir s = Some [fieldnames]).
Proof.
  intros Hmax s r.
  assert (crawl_pages fuel s max_count min_description_length new_session
          = (Exit QuotaReached, new_session)) as Hloop.
  { destruct fuel; cbn [crawl_pages new_session valid_count];
      destruct (Z.ltb_spec 0 max_count); try lia; reflexivity. }
  split; [exact Hloop |].
  intros Hlaunch Hnav. subst r. unfold get_job_details. fold s.
  rewrite Hlaunch, Hloop. cbn [negb].
  destruct (navigate s max_retries (Z.to_nat max_retries) 0) as [t [e |]];
    [discriminate Hnav |].
  cbn [fst snd new_session jobs_buffer emit write_header csv_files].
  split; [reflexivity | apply lookup_insert_eq].
Qed.

Lemma zero_quota_visits_no_page_witness :
  snd (get_job_details 0 (fun _ => endless_site) [] 0 3 4 (Py.str "out")
         empty_world)
  = Returned (output_path_of (Py.str "out") endless_site).
Proof.
  destruct (zero_quota_visits_no_page 0 (fun _ => endless_site) [] 0 3 4
              (Py.str "out") empty_world) as [_ H].
  - lia.
  - destruct H as [H _]; [reflexivity | reflexivity | exact H].
Defined.

(** ** What one crawl touches *)

Lemma launches_app (t1 t2 : list event) :
  launches (t1 ++ t2) = (launches t1 + launches t2)%nat.
Proof. unfold launches. rewrite List.filter_app, length_app. reflexivity. Qed.

Lemma closes_app (t1 t2 : list event) :
  closes (t1 ++ t2) = (closes t1 + closes t2)%nat.
Proof. unfold closes. rewrite List.filter_app, length_app. reflexivity. Qed.

Lemma headers_app (t1 t2 : list event) :
  headers (t1 ++ t2) = (headers t1 + headers t2)%nat.
Proof. unfold headers. rewrite List.filter_app, length_app. reflexivity. Qed.

Lemma navigate_events (s : site) (max_retries : Z) :
  forall n attempt,
    Forall (fun e => is_nav_event e = true)
           (fst (navigate s max_retries n attempt)).
Proof.
  induction n as [| n IH]; intros attempt; cbn [navigate]; [constructor |].
  destruct (nav s attempt); try (repeat constructor).
  destruct (attempt =? max_retries - 1); [repeat constructor |].
  destruct (reload_ok s attempt); [| repeat constructor].
  specialize (IH (attempt + 1)).
  destruct (navigate s max_retries n (attempt + 1)) as [t r].
  cbn [fst] in *. repeat constructor. exact IH.
Qed.

Lemma nav_events_counts (t : list event) :
  Forall (fun e => is_nav_event e = true) t ->
  launches t = 0%nat /\ closes t = 0%nat /\ headers t = 0%nat.
Proof.
  induction 1 as [| e t He _ IH]; [repeat split |].
  unfold launches, closes, headers in *.
  destruct e; try discriminate He; cbn; exact IH.
Qed.

(** The effects of one call of [get_job_details], by the way it ends. *)
Lemma get_job_details_shape (fuel : nat) (browser : pystr -> site)
    (url : pystr) (max_count max_retries min_description_length : Z)
    (output_dir : pystr) (w : world) :
  let s := browser url in
  let p := output_path_of output_dir s in
  let r := get_job_details fuel browser url max_count max_retries
             min_description_length output_dir w in
  exists (content : csv_file) (t : list event),
    csv_files (fst r) = <[p := content]> (csv_files w)
    /\ trace (fst r) = trace w ++ Makedirs output_dir :: WriteHeader p :: t
    /\ headers t = 0%nat
    /\ launches t = (if launch_ok s then 1 else 0)%nat
    /\ closes t
       = match snd r with
         | Returned _ => 1%nat
         | Raised _ =>
           if launch_ok s
           then match snd (navigate s max_retries (Z.to_nat max_retries) 0) with
                | Some _ => 0%nat
                | None => 1%nat
                end
           else 0%nat
         | Running => 0%nat
         end.
Proof.
  intros s p r. subst r. unfold get_job_details. fold s. fold p.
  destruct (launch_ok s); cbn [negb].
  2: { exists [fieldnames], []. cbn [fst snd write_header emit csv_files trace].
       rewrite <- app_assoc. repeat split. }
  pose proof (navigate_events s max_retries (Z.to_nat max_retries) 0) as Hnav.
  apply nav_events_counts in Hnav. destruct Hnav as (Hl & Hc & Hh).
  destruct (navigate s max_retries (Z.to_nat max_retries) 0) as [t [e |]];
    cbn [fst snd] in *.
  { exists [fieldnames], (BrowserLaunch :: t).
    cbn [fst snd write_header emit csv_files trace].
    rewrite <- !app_assoc.
    change (BrowserLaunch :: t) with ([BrowserLaunch] ++ t).
    rewrite headers_app, launches_app, closes_app, Hl, Hc, Hh.
    repeat split. }
  destruct (crawl_pages _ _ _ _ _) as [[why | |] st]; cbn [fst snd].
  - destruct (jobs_buffer st) as [| job rest] eqn:Hbuf.
    + exists [fieldnames], (BrowserLaunch :: t ++ [BrowserClose]).
      cbn [fst snd write_header emit csv_files trace].
      rewrite <- !app_assoc.
      change (BrowserLaunch :: t ++ [BrowserClose])
        with ([BrowserLaunch] ++ t ++ [BrowserClose]).
      rewrite !headers_app, !launches_app, !closes_app, Hl, Hc, Hh.
      repeat split.
    + exists ([fieldnames] ++ encoded (writerows (job :: rest))),
        (BrowserLaunch :: t
         ++ [AppendRows p (encoded (writerows (job :: rest))); BrowserClose]).
      unfold append_rows.
      destruct (forallb encodable (writerows (job :: rest)));
        cbn [fst snd write_header emit csv_files trace];
        rewrite lookup_insert_eq, insert_insert_eq; cbn [default];
        rewrite <- !app_assoc;
        change (BrowserLaunch :: t
                ++ [AppendRows p (encoded (writerows (job :: rest)));
                    BrowserClose])
          with ([BrowserLaunch] ++ t
                ++ [AppendRows p (encoded (writerows (job :: rest)));
                    BrowserClose]);
        rewrite !headers_app, !launches_app, !closes_app, Hl, Hc, Hh;
        repeat split.
  - exists [fieldnames], (BrowserLaunch :: t ++ [BrowserClose]).
    cbn [fst snd write_header emit csv_files trace].
    rewrite <- !app_assoc.
    change (BrowserLaunch :: t ++ [BrowserClose])
      with ([BrowserLaunch] ++ t ++ [BrowserClose]).
    rewrite !headers_app, !launches_app, !closes_app, Hl, Hc, Hh.
    repeat split.
  - exists [fieldnames], (BrowserLaunch :: t).
    cbn [fst snd write_header emit csv_files trace].
    rewrite <- !app_assoc.
    change (BrowserLaunch :: t) with ([BrowserLaunch] ++ t).
    rewrite headers_app, launches_app, closes_app, Hl, Hc, Hh.
    repeat split.
Qed.

(** X14. One call of [get_job_details] writes to one file only: every
    category file other than the one at its output path, and every
    combined file, is as before the call; it creates exactly one category
    file, after creating its directory and before starting the browser,
    which it starts at most once. *)
Theorem get_job_details_writes_one_file
    (fuel : nat) (browser : pystr -> site) (url : pystr)
    (max_count max_retries min_description_length : Z)
    (output_dir : pystr) (w : world) :
  let p := output_path_of output_dir (browser url) in
  let r := get_job_details fuel browser url max_count max_retries
             min_description_length output_dir w in
  (forall q, q <> p -> csv_files (fst r) !! q = csv_files w !! q)
  /\ jsonl_files (fst r) = jsonl_files w
  /\ (exists t, trace (fst r)
                = trace w ++ Makedirs output_dir :: WriteHeader p :: t
                /\ headers t = 0%nat /\ (launches t <= 1)%nat)
  /\ headers (trace (fst r)) = (headers (trace w) + 1)%nat.
Proof.
  intros p r.
  destruct (get_job_details_shape fuel browser url max_count max_retries
              min_description_length output_dir w)
    as (content & t & Hcsv & Ht & Hh & Hl & _).
  fold p in Hcsv, Ht. fold r in Hcsv, Ht.
  split.
  { intros q Hq. rewrite Hcsv. apply lookup_insert_ne. congruence. }
  split; [apply get_job_details_jsonl |].
  split.
  { exists t. split; [exact Ht |]. split; [exact Hh |].
    rewrite Hl. destruct (launch_ok _); lia. }
  rewrite Ht, headers_app.
  change (Makedirs output_dir :: WriteHeader p :: t)
    with ([Makedirs output_dir; WriteHeader p] ++ t).
  rewrite headers_app, Hh. cbn. lia.
Qed.

(** X15. [browser.close()] is called exactly once when [get_job_details]
    returns, and also when an exception leaves the page loop; it is not
    called when navigation raises, although the browser was started: the
    navigation loop stands before the [try] of line 158. *)
Theorem browser_closed_after_page_loop_only
    (fuel : nat) (browser : pystr -> site) (url : pystr)
    (max_count max_retries min_description_length : Z)
    (output_dir : pystr) (w : world) :
  let s := browser url in
  let r := get_job_details fuel browser url max_count max_retries
             min_description_length output_dir w in
  (closes (trace (fst r)) <= closes (trace w) + 1)%nat
  /\ (forall p, snd r = Returned p ->
                launches (trace (fst r)) = (launches (trace w) + 1)%nat
                /\ closes (trace (fst r)) = (closes (trace w) + 1)%nat)
  /\ (forall e,
        launch_ok s = true ->
        snd (navigate s max_retries (Z.to_nat max_retries) 0) = Some e ->
        snd r = Raised e
        /\ launches (trace (fst r)) = (launches (trace w) + 1)%nat
        /\ closes (trace (fst r)) = closes (trace w))
  /\ (launch_ok s = true ->
      snd (navigate s max_retries (Z.to_nat max_retries) 0) = None ->
      fst (crawl_pages fuel s max_count min_description_length new_session)
      = Crashed ->
      snd r = Raised PlaywrightError
      /\ closes (trace (fst r)) = (closes (trace w) + 1)%nat).
Proof.
  intros s r.
  destruct (get_job_details_shape fuel browser url max_count max_retries
              min_description_length output_dir w)
    as (content & t & _ & Ht & _ & Hl & Hc).
  fold s in Ht, Hl, Hc. fold r in Ht, Hc.
  assert (launches (trace (fst r)) = (launches (trace w) + launches t)%nat
          /\ closes (trace (fst r)) = (closes (trace w) + closes t)%nat)
    as [Hlaunch Hclose].
  { rewrite Ht, launches_app, closes_app.
    change (Makedirs output_dir :: WriteHeader (output_path_of output_dir s) :: t)
      with ([Makedirs output_dir; WriteHeader (output_path_of output_dir s)]
            ++ t).
    rewrite launches_app, closes_app. cbn. lia. }
  assert (forall e,
            launch_ok s = true ->
            snd (navigate s max_retries (Z.to_nat max_retries) 0) = Some e ->
            snd r = Raised e) as Hnavfail.
  { intros e Hok Hnav. subst r. unfold get_job_details. fold s.
    rewrite Hok. cbn [negb].
    destruct (navigate s max_retries (Z.to_nat max_retries) 0) as [t' r'].
    cbn [snd] in Hnav. subst r'. reflexivity. }
  assert (launch_ok s = true ->
          snd (navigate s max_retries (Z.to_nat max_retries) 0) = None ->
          fst (crawl_pages fuel s max_count min_description_length new_session)
          = Crashed ->
          snd r = Raised PlaywrightError) as Hcrash.
  { intros Hok Hnav Hloop. subst r. unfold get_job_details. fold s.
    rewrite Hok. cbn [negb].
    destruct (navigate s max_retries (Z.to_nat max_retries) 0) as [t' r'].
    cbn [snd] in Hnav. subst r'.
    destruct (crawl_pages _ _ _ _ _) as [loop st].
    cbn [fst] in Hloop. subst loop. reflexivity. }
  split.
  { rewrite Hclose, Hc. destruct (snd r); [lia | | lia].
    destruct (launch_ok s); [| lia].
    destruct (snd (navigate _ _ _ _)); lia. }
  split.
  { intros p Hp. rewrite Hp in Hc. rewrite Hlaunch, Hclose, Hc, Hl.
    destruct (launch_ok s) eqn:Hok; [split; reflexivity |].
    exfalso. subst r. unfold get_job_details in Hp. fold s in Hp.
    rewrite Hok in Hp. discriminate Hp. }
  split.
  { intros e Hok Hnav. pose proof (Hnavfail e Hok Hnav) as Hr.
    split; [exact Hr |].
    rewrite Hr, Hok, Hnav in Hc. rewrite Hlaunch, Hclose, Hl, Hc, Hok.
    split; lia. }
  intros Hok Hnav Hloop. pose proof (Hcrash Hok Hnav Hloop) as Hr.
  split; [exact Hr |].
  rewrite Hr, Hok, Hnav in Hc. rewrite Hclose, Hc. reflexivity.
Qed.

(** ** Writing the category file and reading it back *)













(** X18. Every line that [append_csv_to_jsonl] appends carries the two
    tags with the values it was given, whatever the columns of the file
    are: a column named [job_category] or [job_code] is overwritten; under
    every other key the line holds what the row held. *)
Theorem merged_lines_carry_the_given_tags
    (csv_path combined_path job_name job_code : pystr) (w : world)
    (f : csv_file) (old : list json_row) :
  csv_files w !! csv_path = Some f ->
  jsonl_files w !! combined_path = Some old ->
  exists new,
    jsonl_files (fst (append_csv_to_jsonl csv_path combined_path job_name
                        job_code w)) !! combined_path = Some (old ++ new)
    /\ Forall (fun line : json_row =>
                 Py.get line (Some (Py.str "job_category"))
                 = Some (Str job_name)
                 /\ Py.get line (Some (Py.str "job_code"))
                    = Some (Str job_code)) new
    /\ Forall2 (fun (row line : json_row) =>
                  forall k, k <> Some (Py.str "job_category") ->
                            k <> Some (Py.str "job_code") ->
                            Py.get line k = Py.get row k)
               (dict_reader f) new.
Proof.
  intros Hf Hold. unfold append_csv_to_jsonl. rewrite Hf.
  pose proof (merge_rows_spec combined_path job_name job_code
                (dict_reader f) 0 w old Hold) as Hm.
  cbn zeta in Hm.
  destruct (merge_rows (dict_reader f) combined_path job_name job_code 0 w)
    as [w' n].
  cbn [fst snd] in *. destruct Hm as (_ & Hj & _ & _).
  exists (map (tag job_name job_code) (dict_reader f)).
  split; [rewrite Hj; apply lookup_insert_eq |].
  assert (Some (Py.str "job_category") <> Some (Py.str "job_code")) as Hne
    by (vm_compute; discriminate).
  split.
  - apply Forall_map, Forall_forall. intros row _. unfold tag.
    split; [| apply get_set_eq].
    rewrite get_set_ne by (intros H; apply Hne; symmetry; exact H).
    apply get_set_eq.
  - clear Hj. induction (dict_reader f) as [| row rows IH]; cbn [map];
      [constructor |].
    constructor; [| exact IH].
    intros k Hk1 Hk2. unfold tag.
    rewrite !get_set_ne by congruence. reflexivity.
Qed.

Lemma merged_lines_carry_the_given_tags_witness :
  exists new,
    jsonl_files (fst (append_csv_to_jsonl (Py.str "java.csv")
                        (Py.str "all.jsonl") (Py.str "Java")
                        (Py.str "100101") prior_world))
    !! Py.str "all.jsonl" = Some ([old_line] ++ new)
    /\ Forall (fun line : json_row =>
                 Py.get line (Some (Py.str "job_category"))
                 = Some (Str (Py.str "Java"))
                 /\ Py.get line (Some (Py.str "job_code"))
                    = Some (Str (Py.str "100101"))) new.
Proof.
  destruct (merged_lines_carry_the_given_tags (Py.str "java.csv")
              (Py.str "all.jsonl") (Py.str "Java") (Py.str "100101")
              prior_world sample_csv [old_line])
    as (new & Hfile & Htags & _).
  - vm_compute. reflexivity.
  - vm_compute. reflexivity.
  - exists new. split; assumption.
Defined.

(** ** The names on the command line *)

Lemma filter_nil_iff {A} (f : A -> bool) (l : list A) :
  List.filter f l = [] <-> Forall (fun x => f x = false) l.
Proof.
  induction l as [| x l IH]; [split; [constructor | reflexivity] |].
  cbn [List.filter]. destruct (f x) eqn:Hx.
  - split; [discriminate |]. intros H. apply Forall_inv in H. congruence.
  - rewrite IH. split; [intros H; constructor; assumption |].
    intros H. exact (Forall_inv_tail H).
Qed.

Lemma requested_names_clean (raw : pystr) :
  Forall (fun name : pystr => name <> [] /\ Py.strip name = name)
         (requested_names raw).
Proof.
  unfold requested_names.
  induction (Py.split 44 raw) as [| piece pieces IH]; [constructor |].
  cbn [map List.filter].
  destruct (Py.strip piece) as [| c name] eqn:Hpiece; [exact IH |].
  cbn [is_empty negb]. constructor; [| exact IH].
  split; [discriminate |]. rewrite <- Hpiece. apply strip_idempotent.
Qed.

(** X19. For a [--jobs] value that is not empty, [parse_job_names] is
    all or nothing: it returns the requested names (the comma-separated
    entries, stripped, with the blank ones dropped, repetitions kept)
    exactly when each of them is a key of [job_dict], and otherwise raises
    a [ValueError] that lists, in order, exactly the requested names that
    are not; a requested name is never empty and never has white space
    around it. *)
Theorem parse_job_names_all_or_nothing (raw : pystr) :
  raw <> [] ->
  let names := requested_names raw in
  let unknown :=
    List.filter (fun name => negb (Py.mem job_dict name)) names in
  (forall result,
     parse_job_names (Some raw) = Returned result
     <-> result = names /\ Forall (fun n => Py.mem job_dict n = true) names)
  /\ (forall e,
        parse_job_names (Some raw) = Raised e
        <-> e = ValueError unknown /\ unknown <> [])
  /\ parse_job_names (Some raw) <> Running
  /\ (forall n, In n unknown <-> In n names /\ Py.mem job_dict n = false)
  /\ Forall (fun name : pystr => name <> [] /\ Py.strip name = name) names.
Proof.
  intros Hraw names unknown.
  assert (parse_job_names (Some raw)
          = match unknown with
            | [] => Returned names
            | _ => Raised (ValueError unknown)
            end) as Hparse.
  { destruct raw as [| c raw]; [contradiction |]. reflexivity. }
  assert (unknown = [] <-> Forall (fun n => Py.mem job_dict n = true) names)
    as Hall.
  { subst unknown. rewrite filter_nil_iff. apply Forall_proper; [| reflexivity].
    intros n. destruct (Py.mem job_dict n); cbn; split; congruence. }
  split.
  { intros result. rewrite Hparse. destruct unknown as [| u us] eqn:Hu.
    - split; [intros [= <-]; split; [reflexivity | apply Hall; reflexivity] |].
      intros [-> _]. reflexivity.
    - split; [discriminate |].
      intros [_ Hknown]. apply Hall in Hknown. discriminate Hknown. }
  split.
  { intros e. rewrite Hparse. destruct unknown as [| u us] eqn:Hu.
    - split; [discriminate | intros [_ H]; contradiction].
    - split; [intros [= <-]; split; [reflexivity | discriminate] |].
      intros [-> _]. reflexivity. }
  split.
  { rewrite Hparse. destruct unknown; discriminate. }
  split.
  { intros n. subst unknown. rewrite filter_In.
    destruct (Py.mem job_dict n); cbn; split; intros [H1 H2]; split;
      congruence. }
  apply requested_names_clean.
Qed.

Lemma parse_job_names_all_or_nothing_witness :
  parse_job_names (Some (Py.str "Java, Rust ,,Go,Python"))
  = Raised (ValueError [Py.str "Rust"; Py.str "Go"]).
Proof.
  apply (proj1 (proj2 (parse_job_names_all_or_nothing
                         (Py.str "Java, Rust ,,Go,Python")
                         ltac:(discriminate)))).
  split; [vm_compute; reflexivity | discriminate].
Defined.

Lemma split_no_sep (sep : N) (p : pystr) :
  ~ In sep p -> Py.split sep p = [p].
Proof.
  induction p as [| c p IH]; [reflexivity |].
  intros Hnot. cbn [Py.split].
  destruct (N.eqb_spec c sep) as [-> | Hne]; [exfalso; apply Hnot; left; reflexivity |].
  rewrite IH; [reflexivity |]. intros Hin. apply Hnot. right. exact Hin.
Qed.

Lemma split_app_sep (sep : N) (p s : pystr) :
  ~ In sep p -> Py.split sep (p ++ sep :: s) = p :: Py.split sep s.
Proof.
  induction p as [| c p IH]; intros Hnot; cbn [app Py.split].
  - rewrite N.eqb_refl. reflexivity.
  - destruct (N.eqb_spec c sep) as [-> | Hne];
      [exfalso; apply Hnot; left; reflexivity |].
    rewrite IH; [reflexivity |]. intros Hin. apply Hnot. right. exact Hin.
Qed.

(** Splitting inverts joining, for a list that is not empty and parts
    that do not hold the separator. *)
Lemma split_join (sep : N) (parts : list pystr) :
  parts <> [] ->
  Forall (fun p => ~ In sep p) parts ->
  Py.split sep (Py.join [sep] parts) = parts.
Proof.
  intros Hne Hall. induction Hall as [| p parts Hp Hall IH]; [contradiction |].
  destruct parts as [| q parts].
  - cbn [Py.join]. apply split_no_sep, Hp.
  - change (Py.join [sep] (p :: q :: parts))
      with (p ++ sep :: Py.join [sep] (q :: parts)).
    rewrite split_app_sep by exact Hp.
    rewrite IH by discriminate. reflexivity.
Qed.

Lemma job_dict_keys_clean :
  Forall (fun n : pystr => n <> [] /\ Py.strip n = n /\ 44%N ∉ n)
         (Py.keys job_dict).
Proof. apply (bool_decide_unpack _). vm_compute. exact I. Qed.

Lemma known_name_clean (name : pystr) :
  Py.mem job_dict name = true ->
  name <> [] /\ Py.strip name = name /\ ~ In 44%N name.
Proof.
  unfold Py.mem. destruct (Py.get job_dict name) as [code |] eqn:Hget;
    [| discriminate].
  intros _. apply get_in_keys in Hget as [Hin _].
  pose proof job_dict_keys_clean as Hclean.
  rewrite Forall_forall in Hclean.
  destruct (Hclean name) as (H1 & H2 & H3); [apply list_elem_of_In, Hin |].
  split; [exact H1 |]. split; [exact H2 |].
  intros H. apply H3, list_elem_of_In, H.
Qed.

(** X20. [parse_job_names] inverts the comma-join of category names: for
    a list of keys of [job_dict] that is not empty, it returns that very
    list, in the same order and with the same repetitions. *)
Theorem parse_job_names_inverts_join (names : list pystr) :
  names <> [] ->
  Forall (fun n => Py.mem job_dict n = true) names ->
  parse_job_names (Some (Py.join (Py.str ",") names)) = Returned names.
Proof.
  intros Hne Hknown.
  assert (Forall (fun n : pystr => n <> [] /\ Py.strip n = n /\ ~ In 44%N n)
            names) as Hclean
    by (eapply Forall_impl; [exact Hknown | exact known_name_clean]).
  assert (requested_names (Py.join (Py.str ",") names) = names) as Hreq.
  { unfold requested_names. change (Py.str ",") with [44%N].
    rewrite split_join;
      [| exact Hne
       | eapply Forall_impl; [exact Hclean | intros n (_ & _ & H); exact H]].
    clear Hne Hknown.
    induction Hclean as [| n names (Hn & Hs & _) _ IH]; [reflexivity |].
    cbn [map List.filter]. rewrite Hs, IH.
    destruct n; [contradiction | reflexivity]. }
  assert (Py.join (Py.str ",") names <> []) as Hraw.
  { intros Hnil. rewrite Hnil in Hreq. symmetry in Hreq.
    apply Hne. exact Hreq. }
  destruct (Py.join (Py.str ",") names) as [| c raw] eqn:Hjoin;
    [contradiction |].
  unfold parse_job_names. cbv beta iota zeta. rewrite Hreq.
  replace (List.filter (fun name => negb (Py.mem job_dict name)) names)
    with (@nil pystr); [reflexivity |].
  symmetry. apply filter_nil_iff.
  eapply Forall_impl; [exact Hknown |].
  intros n Hn. cbn beta. rewrite Hn. reflexivity.
Qed.

Lemma parse_job_names_inverts_join_witness :
  parse_job_names
    (Some (Py.join (Py.str ",") [Py.str "C/C++"; Py.str "Node.js";
                                 Py.str "C/C++"]))
  = Returned [Py.str "C/C++"; Py.str "Node.js"; Py.str "C/C++"].
Proof.
  apply parse_job_names_inverts_join.
  - discriminate.
  - repeat constructor.
Defined.

(** ** The loop over the categories *)

Lemma get_job_details_counts (fuel : nat) (browser : pystr -> site)
    (url : pystr) (max_count max_retries min_description_length : Z)
    (output_dir : pystr) (w : world) :
  let r := get_job_details fuel browser url max_count max_retries
             min_description_length output_dir w in
  headers (trace (fst r)) = (headers (trace w) + 1)%nat
  /\ (launches (trace (fst r)) <= launches (trace w) + 1)%nat.
Proof.
  intros r.
  destruct (get_job_details_shape fuel browser url max_count max_retries
              min_description_length output_dir w)
    as (content & t & _ & Ht & Hh & Hl & _).
  fold r in Ht. rewrite Ht, headers_app, launches_app.
  match goal with
  | |- context [Makedirs ?a :: WriteHeader ?b :: t] =>
    change (Makedirs a :: WriteHeader b :: t)
      with ([Makedirs a; WriteHeader b] ++ t)
  end.
  rewrite headers_app, launches_app, Hh, Hl.
  destruct (launch_ok _); cbn; lia.
Qed.

Lemma emit_print_counts (e : event) (w : world) :
  match e with
  | PrintCrawling _ _ | PrintFailed _ _ | PrintNoOutput _ | PrintAdded _ => True
  | _ => False
  end ->
  headers (trace (emit [e] w)) = headers (trace w)
  /\ launches (trace (emit [e] w)) = launches (trace w).
Proof.
  cbn [emit trace]. rewrite headers_app, launches_app.
  destruct e; try contradiction; intros _; cbn; lia.
Qed.

(** The loop over the categories, up to the first name that is not a key
    of [job_dict]. *)
Lemma crawl_each_until_unknown (fuel : nat) (web : nat -> pystr -> site)
    (output_dir combined_path : pystr) (max_count min_description_length : Z)
    (city job_type : pystr) (rest : list pystr)
    (stop : world -> world * result unit) :
  (forall i url,
     fst (crawl_pages fuel (web i url) max_count min_description_length
            new_session) <> OutOfFuel) ->
  (forall i w,
     crawl_each fuel web i rest output_dir combined_path max_count
       min_description_length city job_type w = stop w) ->
  (forall w, trace (fst (stop w)) = trace w) ->
  forall (known : list pystr),
    Forall (fun name => Py.mem job_dict name = true) known ->
    forall (i : nat) (w : world),
      let r := crawl_each fuel web i (known ++ rest) output_dir combined_path
                 max_count min_description_length city job_type w in
      (exists w', snd r = snd (stop w'))
      /\ crawled (trace (fst r)) = crawled (trace w) ++ known
      /\ headers (trace (fst r)) = (headers (trace w) + length known)%nat
      /\ (launches (trace (fst r)) <= launches (trace w) + length known)%nat.
Proof.
  intros Hfuel Hrest Hstop.
  induction 1 as [| job_name known Hknown _ IH]; intros i w.
  { cbn [app length]. rewrite Hrest, Hstop, app_nil_r.
    split; [exists w; reflexivity |]. repeat split; lia. }
  cbn [app crawl_each length].
  unfold Py.mem in Hknown.
  destruct (Py.get job_dict job_name) as [job_code |]; [| discriminate].
  match goal with
  | |- context [get_job_details ?a ?b ?c ?d ?e ?f ?g ?h] =>
    pose proof (get_job_details_crawled a b c d e f g h) as Hd;
    pose proof (get_job_details_counts a b c d e f g h) as Hn;
    destruct (get_job_details a b c d e f g h) as [w1 r]
  end.
  cbn zeta in Hd, Hn. cbn [fst snd] in Hd, Hn.
  destruct Hd as [Hc Hrun]. destruct Hn as [Hh Hl].
  specialize (Hrun (Hfuel i _)).
  destruct (emit_print_counts (PrintCrawling job_name job_code) w I)
    as [Hh0 Hl0].
  rewrite Hh0 in Hh. rewrite Hl0 in Hl.
  cbn [emit trace] in Hc. rewrite crawled_app in Hc. cbn [crawled] in Hc.
  cbn [await_str].
  assert (forall exc,
            let r := crawl_each fuel web (S i) (known ++ rest) output_dir
                       combined_path max_count min_description_length city
                       job_type (emit [PrintFailed job_name exc] w1) in
            (exists w', snd r = snd (stop w'))
            /\ crawled (trace (fst r))
               = crawled (trace w) ++ job_name :: known
            /\ headers (trace (fst r))
               = (headers (trace w) + S (length known))%nat
            /\ (launches (trace (fst r))
                <= launches (trace w) + S (length known))%nat) as Hnext.
  { intros exc.
    destruct (IH (S i) (emit [PrintFailed job_name exc] w1))
      as (Hr & Ht & Hh' & Hl').
    destruct (emit_print_counts (PrintFailed job_name exc) w1 I)
      as [Hh1 Hl1].
    cbn zeta. split; [exact Hr |].
    rewrite Ht, Hh', Hh1, Hh. cbn [emit trace].
    rewrite crawled_app, Hc. cbn [crawled].
    rewrite app_nil_r, <- app_assoc.
    split; [reflexivity |]. split; lia. }
  destruct r as [p | exc |]; [apply Hnext | apply Hnext | congruence].
Qed.

(** X21. A name that is not a key of [job_dict] stops the loop over the
    categories: [crawl_jobs], once driven, crawls the names before it, one
    category file each, and then raises [KeyError] for that name at line
    372, which stands outside the [try]; the names after it are never
    reached. *)
Theorem unknown_name_aborts_crawl_jobs
    (fuel : nat) (web : nat -> pystr -> site)
    (known : list pystr) (bad : pystr) (later : list pystr)
    (output_dir combined_path : pystr) (max_count min_description_length : Z)
    (city job_type : pystr) (append : bool) (w : world) :
  (forall i url,
     fst (crawl_pages fuel (web i url) max_count min_description_length
            new_session) <> OutOfFuel) ->
  Forall (fun name => Py.mem job_dict name = true) known ->
  Py.mem job_dict bad = false ->
  let r := drive (crawl_jobs web (known ++ bad :: later) output_dir
                    combined_path max_count min_description_length city
                    job_type append) fuel w in
  snd r = Raised (KeyError bad)
  /\ crawled (trace (fst r)) = crawled (trace w) ++ known
  /\ headers (trace (fst r)) = (headers (trace w) + length known)%nat.
Proof.
  intros Hfuel Hknown Hbad r. subst r. unfold drive, crawl_jobs. cbn [body].
  destruct (crawl_each_until_unknown fuel web output_dir combined_path
              max_count min_description_length city job_type (bad :: later)
              (fun w => (w, Raised (KeyError bad))) Hfuel)
    with (known := known) (i := 0%nat)
         (w := open_combined combined_path append w)
    as ((w' & Hr) & Hc & Hh & _).
  - intros i w0. cbn [crawl_each]. unfold Py.mem in Hbad.
    destruct (Py.get job_dict bad); [discriminate | reflexivity].
  - reflexivity.
  - exact Hknown.
  - split; [exact Hr |].
    rewrite Hc, Hh. cbn [open_combined trace].
    rewrite crawled_app, headers_app. cbn. rewrite app_nil_r.
    split; [reflexivity | lia].
Qed.

Lemma unknown_name_aborts_crawl_jobs_witness :
  snd (drive (crawl_jobs (fun _ _ => endless_site)
                [Py.str "Java"; Py.str "Rust"; Py.str "Python"]
                (Py.str "out") (Py.str "all.jsonl") 3 4
                (Py.str "100010000") (Py.str "1901") false) 3 prior_world)
  = Raised (KeyError (Py.str "Rust")).
Proof.
  apply (unknown_name_aborts_crawl_jobs 3 (fun _ _ => endless_site)
           [Py.str "Java"] (Py.str "Rust") [Py.str "Python"]
           (Py.str "out") (Py.str "all.jsonl") 3 4
           (Py.str "100010000") (Py.str "1901") false prior_world).
  - intros i url. vm_compute. discriminate.
  - repeat constructor.
  - reflexivity.
Defined.

(** X22. A crawl that fails does not stop the others: for names that are
    all keys of [job_dict], and sites on which every crawl ends,
    [crawl_jobs], once driven, returns without an exception whatever
    happens in the crawls (a browser that does not start, navigation that
    gives up, an exception in the page loop); it starts a crawl for every
    name, in order, and creates one category file per name. *)
Theorem crawl_jobs_attempts_every_known_category
    (fuel : nat) (web : nat -> pystr -> site) (job_names : list pystr)
    (output_dir combined_path : pystr) (max_count min_description_length : Z)
    (city job_type : pystr) (append : bool) (w : world) :
  (forall i url,
     fst (crawl_pages fuel (web i url) max_count min_description_length
            new_session) <> OutOfFuel) ->
  Forall (fun name => Py.mem job_dict name = true) job_names ->
  let r := drive (crawl_jobs web job_names output_dir combined_path
                    max_count min_description_length city job_type append)
             fuel w in
  snd r = Returned tt
  /\ crawled (trace (fst r)) = crawled (trace w) ++ job_names
  /\ headers (trace (fst r)) = (headers (trace w) + length job_names)%nat
  /\ (launches (trace (fst r))
      <= launches (trace w) + length job_names)%nat.
Proof.
  intros Hfuel Hknown r. subst r. unfold drive, crawl_jobs. cbn [body].
  destruct (crawl_each_until_unknown fuel web output_dir combined_path
              max_count min_description_length city job_type []
              (fun w => (w, Returned tt)) Hfuel)
    with (known := job_names) (i := 0%nat)
         (w := open_combined combined_path append w)
    as ((w' & Hr) & Hc & Hh & Hl).
  - intros i w0. reflexivity.
  - reflexivity.
  - exact Hknown.
  - rewrite app_nil_r in *. split; [exact Hr |].
    rewrite Hc, Hh. cbn [open_combined trace] in *.
    rewrite crawled_app, headers_app. rewrite launches_app in Hl.
    cbn in *. rewrite app_nil_r.
    split; [reflexivity |]. split; lia.
Qed.

Lemma crawl_jobs_attempts_every_known_category_witness :
  crawled
    (trace (fst (drive
                   (crawl_jobs
                      (fun i _ => if Nat.eqb i 0 then always_timeout
                                  else endless_site)
                      [Py.str "Java"; Py.str "Python"]
                      (Py.str "out") (Py.str "all.jsonl") 3 4
                      (Py.str "100010000") (Py.str "1901") false)
                   3 prior_world)))
  = [Py.str "Java"; Py.str "Python"].
Proof.
  apply (crawl_jobs_attempts_every_known_category 3
           (fun i _ => if Nat.eqb i 0 then always_timeout else endless_site)
           [Py.str "Java"; Py.str "Python"]
           (Py.str "out") (Py.str "all.jsonl") 3 4
           (Py.str "100010000") (Py.str "1901") false prior_world).
  - intros i url. destruct i; vm_compute; discriminate.
  - repeat constructor.
Defined.

(** X23. As the code stands, a driven [crawl_jobs] changes the combined
    files only by opening its own: that file ends as it was when
    appending, and empty when overwriting, whatever the categories and the
    sites are, and no other combined file is touched.  (The merge of line
    393 lies behind the [await] of line 379, which raises on the path that
    [get_job_details] returns.) *)
Theorem driven_run_only_opens_the_combined_file
    (fuel : nat) (web : nat -> pystr -> site) (job_names : list pystr)
    (output_dir combined_path : pystr) (max_count min_description_length : Z)
    (city job_type : pystr) (append : bool) (w : world) :
  jsonl_files
    (fst (drive (crawl_jobs web job_names output_dir combined_path max_count
                   min_description_length city job_type append) fuel w))
  = <[combined_path :=
        if append then default [] (jsonl_files w !! combined_path) else []]>
      (jsonl_files w).
Proof.
  unfold drive, crawl_jobs. cbn [body].
  rewrite crawl_each_jsonl. reflexivity.
Qed.

(** ** Edges of the filters and of the command line *)

Lemma english_chars_none (job_description : pystr) :
  Forall (fun c => Py.isascii c && Py.isalpha c = false) job_description ->
  english_chars job_description = 0.
Proof.
  intros H. unfold english_chars.
  replace (List.filter (fun c => Py.isascii c && Py.isalpha c)
             job_description) with (@nil N); [reflexivity |].
  symmetry. apply filter_nil_iff. exact H.
Qed.

(** [0 / n] never exceeds the limit, whatever the float [n] is. *)
Lemma zero_ratio_not_foreign (total : float) :
  PrimFloat.ltb english_limit (PrimFloat.div (Py.float_of_int 0) total)
  = false.
Proof.
  rewrite FloatAxioms.ltb_spec, FloatAxioms.div_spec.
  replace (Prim2SF (Py.float_of_int 0)) with (S754_zero false)
    by (vm_compute; reflexivity).
  replace (Prim2SF english_limit)
    with (S754_finite false 5404319552844595 (-54))
    by (vm_compute; reflexivity).
  destruct (Prim2SF total) as [s | s | | s m e]; try destruct s; reflexivity.
Qed.

(** X24. A description without any ASCII letter never fails the ratio
    test: whatever its length and its characters (digits, punctuation,
    Chinese), it is accepted as soon as it is long enough, and rejected for
    its length otherwise. *)
Theorem description_without_ascii_letters_passes_ratio
    (min_description_length : Z) (job_description : pystr) :
  Forall (fun c => Py.isascii c && Py.isalpha c = false) job_description ->
  english_chars job_description = 0
  /\ PrimFloat.ltb english_limit (english_ratio job_description) = false
  /\ filter_decision min_description_length job_description
     = if Py.len job_description <? min_description_length
       then RejectShort else Accept.
Proof.
  intros H. pose proof (english_chars_none job_description H) as Hzero.
  assert (PrimFloat.ltb english_limit (english_ratio job_description)
          = false) as Hratio.
  { unfold english_ratio. cbv zeta. rewrite Hzero.
    destruct (0 <? Py.len job_description);
      [apply zero_ratio_not_foreign | reflexivity]. }
  split; [exact Hzero |]. split; [exact Hratio |].
  unfold filter_decision. rewrite Hratio. reflexivity.
Qed.

Lemma description_without_ascii_letters_passes_ratio_witness :
  filter_decision 5 (Py.str "2024年：负责大模型训练。") = Accept.
Proof.
  apply (description_without_ascii_letters_passes_ratio 5
           (Py.str "2024年：负责大模型训练。")).
  apply (bool_decide_unpack _). vm_compute. exact I.
Defined.

Lemma split_blank (sep : N) (raw : pystr) :
  Forall (fun c => c = sep \/ Py.isspace c = true) raw ->
  Forall (Forall (fun c => Py.isspace c = true)) (Py.split sep raw).
Proof.
  induction 1 as [| c raw Hc _ IH]; [repeat constructor |].
  cbn [Py.split]. destruct (N.eqb_spec c sep) as [-> | Hne].
  - constructor; [constructor | exact IH].
  - destruct Hc as [-> | Hc]; [contradiction |].
    destruct (Py.split sep raw) as [| piece pieces];
      [repeat constructor; exact Hc |].
    constructor; [| exact (Forall_inv_tail IH)].
    constructor; [exact Hc | exact (Forall_inv IH)].
Qed.

Lemma strip_blank (s : pystr) :
  Forall (fun c => Py.isspace c = true) s -> Py.strip s = [].
Proof. intros H. unfold Py.strip. rewrite (lstrip_blank s H). reflexivity. Qed.

(** X25. A [--jobs] value that is not empty but holds nothing except
    commas and white space selects no category at all: [parse_job_names]
    returns the empty list, not the thirteen categories it returns for an
    absent or empty value, and raises nothing. *)
Theorem blank_jobs_select_no_category (raw : pystr) :
  raw <> [] ->
  Forall (fun c => c = 44%N \/ Py.isspace c = true) raw ->
  parse_job_names (Some raw) = Returned []
  /\ parse_job_names (Some raw) <> parse_job_names None.
Proof.
  intros Hraw Hblank.
  assert (requested_names raw = []) as Hreq.
  { unfold requested_names.
    pose proof (split_blank 44 raw Hblank) as Hpieces.
    induction Hpieces as [| piece pieces Hpiece _ IH]; [reflexivity |].
    cbn [map List.filter]. rewrite (strip_blank piece Hpiece). exact IH. }
  assert (parse_job_names (Some raw) = Returned []) as Hparse.
  { destruct raw as [| c raw]; [contradiction |].
    unfold parse_job_names. cbv zeta. rewrite Hreq. reflexivity. }
  split; [exact Hparse |]. rewrite Hparse. discriminate.
Qed.

Lemma blank_jobs_select_no_category_witness :
  parse_job_names (Some (Py.str " , ,,")) = Returned [].
Proof.
  apply (blank_jobs_select_no_category (Py.str " , ,,")).
  - discriminate.
  - apply (bool_decide_unpack _). vm_compute. exact I.
Defined.
